(** * aligner/config.py: the configuration objects of the aligner

    A shallow embedding of [aligner/config.py] and the properties of its
    configuration classes.

    Layout of the development:
    - [Py]: the Python values the module handles, exceptions as a result
      type, [str], [repr], arithmetic on numbers;
    - [Float64]: binary64 rounding, used by the true division of integers
      and by [repr] of floats;
    - [Dict]: insertion-ordered dictionaries;
    - [Os]: [os.path.join], [os.makedirs] and [open(path, 'w')] over a small
      file-system state;
    - [Config]: the classes of [config.py], one definition per method;
    - the theorems. *)

From Stdlib Require Import ZArith Lia Bool List Ascii String.
From Corelib Require Import SpecFloat.
From stdpp Require Import base option list gmap strings pretty.

Set Warnings "-register-all".
Local Open Scope Z_scope.

(** ** Exceptions *)

Inductive exn :=
  | AttributeError
  | TypeError
  | ZeroDivisionError
  | OverflowError
  | ValueError
  | FileExistsError
  | FileNotFoundError
  | IsADirectoryError
  | NotADirectoryError
  | OSError.

(** A computation that returns or raises. *)
Inductive result (A : Type) :=
  | Ok (a : A)
  | Raise (e : exn).
Arguments Ok {A} a.
Arguments Raise {A} e.

#[global] Instance result_ret : MRet result := @Ok.
#[global] Instance result_bind : MBind result := fun A B f m =>
  match m with
  | Ok a => f a
  | Raise e => Raise e
  end.

(** ** Binary64 *)

Module Float64.

Definition prec : Z := 53.
Definition emax : Z := 1024.

(** Smallest exponent of a unit in the last place (subnormal range). *)
Definition emin : Z := -1074.

(** [n / d] rounded to the nearest integer, ties to even
    ([0 <= n], [0 < d]). *)
Definition div_rne (n d : Z) : Z :=
  let q := n / d in
  let r := n mod d in
  if 2 * r <? d then q
  else if d <? 2 * r then q + 1
  else if Z.even q then q else q + 1.

(** The fraction [a / (b * 2^e)] as numerator and denominator. *)
Definition scaled (a b e : Z) : Z * Z :=
  if 0 <=? e then (a, b * 2 ^ e) else (a * 2 ^ (- e), b).

(** Exponent of the unit in the last place of the binary64 nearest to
    [a / b] ([0 < a], [0 < b]): the [e] with
    [2^52 <= a / (b * 2^e) < 2^53], or [emin] below the normal range. *)
Definition ulp_exp (a b : Z) : Z :=
  let e0 := Z.log2 a - Z.log2 b - prec in
  let '(n, d) := scaled a b e0 in
  Z.max emin (if n <? 2 ^ prec * d then e0 else e0 + 1).

(** Packs sign, integer significand [0 <= m <= 2^53] and exponent. *)
Definition pack (s : bool) (m e : Z) : spec_float :=
  let '(m, e) := if m =? 2 ^ prec then (2 ^ (prec - 1), e + 1) else (m, e) in
  match m with
  | Zpos p => if e <=? emax - prec then S754_finite s p e else S754_infinity s
  | _ => S754_zero s
  end.

(** The binary64 nearest to [a / b], ties to even, with sign [s]
    ([0 < a], [0 < b]); infinite when out of range. *)
Definition round_quot (s : bool) (a b : Z) : spec_float :=
  let e := ulp_exp a b in
  let '(n, d) := scaled a b e in
  pack s (div_rne n d) e.

(** The binary64 nearest to the integer [z]. *)
Definition of_Z (z : Z) : spec_float :=
  if z =? 0 then S754_zero false else round_quot (z <? 0) (Z.abs z) 1.

(** The float that the decimal literal [digits * 10^exp10] denotes. *)
Definition of_decimal (digits exp10 : Z) : spec_float :=
  if digits =? 0 then S754_zero false
  else if 0 <=? exp10 then round_quot false (digits * 10 ^ exp10) 1
  else round_quot false digits (10 ^ (- exp10)).

Definition is_zero (f : spec_float) : bool :=
  match f with S754_zero _ => true | _ => false end.

Definition sub : spec_float -> spec_float -> spec_float := SFsub prec emax.
Definition div : spec_float -> spec_float -> spec_float := SFdiv prec emax.

(** Truncation toward zero of a finite float. *)
Definition trunc (f : spec_float) : option Z :=
  match f with
  | S754_zero _ => Some 0
  | S754_finite s m e =>
      let a := if 0 <=? e then Zpos m * 2 ^ e else Zpos m / 2 ^ (- e) in
      Some (if s then - a else a)
  | _ => None
  end.

(** *** [repr] of a float: the shortest decimal that reads back *)

(** The value [m * 2^e] as a fraction. *)
Definition to_frac (m : positive) (e : Z) : Z * Z :=
  if 0 <=? e then (Zpos m * 2 ^ e, 1) else (Zpos m, 2 ^ (- e)).

(** The fraction [(n / d) / 10^k]. *)
Definition scale10 (n d k : Z) : Z * Z :=
  if 0 <=? k then (n, d * 10 ^ k) else (n * 10 ^ (- k), d).

(** [floor (log10 (n / d))], searched from the guess [L]. *)
Fixpoint ilog10_from (fuel : nat) (n d L : Z) : Z :=
  match fuel with
  | O => L
  | S fuel' =>
      let '(tn, td) := scale10 n d L in
      if tn <? td then ilog10_from fuel' n d (L - 1)
      else if tn <? 10 * td then L
      else ilog10_from fuel' n d (L + 1)
  end.

Definition ilog10 (n d : Z) : Z :=
  ilog10_from 700 n d ((Z.log2 n - Z.log2 d) * 3 / 10).

(** Does the decimal [digits * 10^k] read back as [m * 2^e]? *)
Definition reads_back (m : positive) (e digits k : Z) : bool :=
  match of_decimal digits k with
  | S754_finite _ m' e' =>
      let '(n, d) := to_frac m e in
      let '(n', d') := to_frac m' e' in
      n' * d =? n * d'
  | _ => false
  end.

(** The [p]-digit decimal next to [m * 2^e] that reads back as it, the
    nearer one when both do. *)
Definition digits_at (m : positive) (e p : Z) : option (Z * Z) :=
  let '(n, d) := to_frac m e in
  let k := ilog10 n d - (p - 1) in
  let '(tn, td) := scale10 n d k in
  let lo := tn / td in
  let r := tn mod td in
  let hi := lo + 1 in
  if r =? 0 then Some (lo, k)
  else
    match reads_back m e lo k, reads_back m e hi k with
    | true, true => Some (div_rne tn td, k)
    | true, false => Some (lo, k)
    | false, true => Some (hi, k)
    | false, false => None
    end.

Fixpoint shortest_from (fuel : nat) (m : positive) (e p : Z) : Z * Z :=
  match fuel with
  | O =>
      let '(n, d) := to_frac m e in
      let k := ilog10 n d - (p - 1) in
      let '(tn, td) := scale10 n d k in
      (div_rne tn td, k)
  | S fuel' =>
      match digits_at m e p with
      | Some r => r
      | None => shortest_from fuel' m e (p + 1)
      end
  end.

(** Drops the trailing zeros of the digits. *)
Fixpoint strip_zeros (fuel : nat) (digits k : Z) : Z * Z :=
  match fuel with
  | O => (digits, k)
  | S fuel' =>
      if (digits mod 10 =? 0) && negb (digits =? 0)
      then strip_zeros fuel' (digits / 10) (k + 1)
      else (digits, k)
  end.

(** Shortest digits and decimal exponent of [m * 2^e]: at most 17
    significant digits are ever needed. *)
Definition shortest (m : positive) (e : Z) : Z * Z :=
  let '(digits, k) := shortest_from 16 m e 1 in
  strip_zeros 20 digits k.

Fixpoint zeros (n : nat) : string :=
  match n with
  | O => ""
  | S n' => String "0"%char (zeros n')
  end.

Fixpoint str_take (n : nat) (s : string) : string :=
  match n, s with
  | S n', String c s' => String c (str_take n' s')
  | _, _ => ""
  end.

Fixpoint str_drop (n : nat) (s : string) : string :=
  match n, s with
  | S n', String _ s' => str_drop n' s'
  | _, _ => s
  end.

(** Lays out digits and decimal exponent the way [repr] does: plain
    notation when the decimal point falls in [(-4, 16]], exponent
    notation otherwise. *)
Definition layout (digits k : Z) : string :=
  let ds := pretty (Z.to_N digits) in
  let n := Z.of_nat (String.length ds) in
  let decpt := k + n in
  if (decpt <=? -4) || (16 <? decpt) then
    let x := decpt - 1 in
    let xs := pretty (Z.to_N (Z.abs x)) in
    str_take 1 ds
    +:+ (if n =? 1 then "" else "." +:+ str_drop 1 ds)
    +:+ "e" +:+ (if x <? 0 then "-" else "+")
    +:+ (if Z.abs x <? 10 then "0" else "") +:+ xs
  else if decpt <=? 0 then "0." +:+ zeros (Z.to_nat (- decpt)) +:+ ds
  else if n <=? decpt then ds +:+ zeros (Z.to_nat (decpt - n)) +:+ ".0"
  else str_take (Z.to_nat decpt) ds +:+ "." +:+ str_drop (Z.to_nat decpt) ds.

Definition repr (f : spec_float) : string :=
  match f with
  | S754_zero s => (if s then "-" else "") +:+ "0.0"
  | S754_infinity s => (if s then "-" else "") +:+ "inf"
  | S754_nan => "nan"
  | S754_finite s m e =>
      let '(digits, k) := shortest m e in
      (if s then "-" else "") +:+ layout digits k
  end.

End Float64.

(** ** Python values *)

Module Py.

(** The values [config.py] stores and formats.  A [str] is a sequence
    of code points below 256. *)
Inductive pyval :=
  | VNone
  | VBool (b : bool)
  | VInt (z : Z)
  | VFloat (f : spec_float)
  | VStr (s : string)
  | VList (l : list pyval).

(** The float a decimal literal of the source denotes, [1.0] being
    [flt 10 (-1)]. *)
Definition flt (digits exp10 : Z) : pyval :=
  VFloat (Float64.of_decimal digits exp10).

(** *** Strings *)

Definition code (c : ascii) : N := N_of_ascii c.

Definition squote : ascii := ascii_of_N 39.
Definition dquote : ascii := ascii_of_N 34.
Definition backslash : ascii := ascii_of_N 92.
Definition newline : string := String (ascii_of_N 10) EmptyString.

Fixpoint contains (c : ascii) (s : string) : bool :=
  match s with
  | EmptyString => false
  | String c' s' => Ascii.eqb c c' || contains c s'
  end.

(** [str.isprintable] on one code point below 256. *)
Definition printable (c : ascii) : bool :=
  let n := code c in
  ((32 <=? n) && (n <? 127) || (161 <=? n) && negb (n =? 173))%N.

Definition hex_digit (n : N) : ascii :=
  match n with
  | 0 => "0" | 1 => "1" | 2 => "2" | 3 => "3" | 4 => "4" | 5 => "5"
  | 6 => "6" | 7 => "7" | 8 => "8" | 9 => "9" | 10 => "a" | 11 => "b"
  | 12 => "c" | 13 => "d" | 14 => "e" | _ => "f"
  end%char%N.

Definition escape (quote c : ascii) : string :=
  let n := code c in
  if Ascii.eqb c quote || Ascii.eqb c backslash
  then String backslash (String c EmptyString)
  else if (n =? 9)%N then String backslash "t"
  else if (n =? 10)%N then String backslash "n"
  else if (n =? 13)%N then String backslash "r"
  else if printable c then String c EmptyString
  else String backslash
         (String "x" (String (hex_digit (n / 16)) (String (hex_digit (n mod 16)) EmptyString))).

Fixpoint escape_all (quote : ascii) (s : string) : string :=
  match s with
  | EmptyString => EmptyString
  | String c s' => escape quote c +:+ escape_all quote s'
  end.

(** [repr] of a [str]: single quotes, unless the text has a single
    quote and no double quote. *)
Definition str_repr (s : string) : string :=
  let quote :=
    if contains squote s && negb (contains dquote s) then dquote else squote in
  String quote (escape_all quote s +:+ String quote EmptyString).

Definition lower_char (c : ascii) : ascii :=
  let n := code c in
  if ((65 <=? n) && (n <=? 90)
      || (192 <=? n) && (n <=? 222) && negb (n =? 215))%N
  then ascii_of_N (n + 32) else c.

(** [str.lower]. *)
Fixpoint lower (s : string) : string :=
  match s with
  | EmptyString => EmptyString
  | String c s' => String (lower_char c) (lower s')
  end.

Fixpoint join (sep : string) (l : list string) : string :=
  match l with
  | [] => EmptyString
  | [x] => x
  | x :: l' => x +:+ sep +:+ join sep l'
  end.

(** *** [repr], [str], [format] with an empty format specification *)

Fixpoint repr (v : pyval) : string :=
  match v with
  | VNone => "None"
  | VBool b => if b then "True" else "False"
  | VInt z => pretty z
  | VFloat f => Float64.repr f
  | VStr s => str_repr s
  | VList l => "[" +:+ join ", " (map repr l) +:+ "]"
  end.

Definition str (v : pyval) : string :=
  match v with
  | VStr s => s
  | _ => repr v
  end.

Definition format (v : pyval) : string := str v.

(** [repr], [str] and [format] above give the text when the conversion
    returns.  The conversion of an [int] of more than 4300 digits raises
    [ValueError], alone or inside a list.  (A list nested beyond what the
    interpreter's stack allows raises too; that bound is the
    interpreter's, and lists are not bounded here.) *)
Definition int_max_str_digits : Z := 4300.

(** [z] has more than 4300 digits, that is [10^4300 <= |z|]; an integer
    below [2^12900], which is [8^4300], is settled by its size in bits. *)
Definition int_too_long (z : Z) : bool :=
  if Z.log2 (Z.abs z) <? 3 * int_max_str_digits then false
  else 10 ^ int_max_str_digits <=? Z.abs z.

Fixpoint repr_refuses (v : pyval) : bool :=
  match v with
  | VInt z => int_too_long z
  | VList l => existsb repr_refuses l
  | _ => false
  end.

(** [str(v)]. *)
Definition str_result (v : pyval) : result string :=
  if repr_refuses v then Raise ValueError else Ok (str v).

(** [format(v, '')], as ['{}'.format(v)] calls it. *)
Definition format_result (v : pyval) : result string := str_result v.

(** The values that are no list and that [str] converts. *)
Definition plain (v : pyval) : bool :=
  match v with
  | VList _ => false
  | VInt z => negb (int_too_long z)
  | _ => true
  end.

Definition is_list (v : pyval) : bool :=
  match v with VList _ => true | _ => false end.

Definition isinstance_bool (v : pyval) : bool :=
  match v with VBool _ => true | _ => false end.

Definition is_none (v : pyval) : bool :=
  match v with VNone => true | _ => false end.

(** Truth value, as [if] tests it. *)
Definition truthy (v : pyval) : bool :=
  match v with
  | VNone => false
  | VBool b => b
  | VInt z => negb (z =? 0)
  | VFloat f => negb (Float64.is_zero f)
  | VStr s => negb (String.eqb s EmptyString)
  | VList l => match l with [] => false | _ => true end
  end.

(** *** Arithmetic *)

Inductive number :=
  | NInt (z : Z)
  | NFloat (f : spec_float).

(** [bool] is a subclass of [int]. *)
Definition as_number (v : pyval) : option number :=
  match v with
  | VBool b => Some (NInt (Z.b2z b))
  | VInt z => Some (NInt z)
  | VFloat f => Some (NFloat f)
  | _ => None
  end.

Definition finite_or_overflow (f : spec_float) : result spec_float :=
  match f with
  | S754_infinity _ => Raise OverflowError
  | _ => Ok f
  end.

Definition to_float (n : number) : result spec_float :=
  match n with
  | NFloat f => Ok f
  | NInt z => finite_or_overflow (Float64.of_Z z)
  end.

(** [a - b]. *)
Definition sub (a b : pyval) : result pyval :=
  match as_number a, as_number b with
  | Some (NInt x), Some (NInt y) => Ok (VInt (x - y))
  | Some x, Some y =>
      fx ← to_float x; fy ← to_float y; Ok (VFloat (Float64.sub fx fy))
  | _, _ => Raise TypeError
  end.

(** [x / y] on integers: the float nearest to the quotient. *)
Definition int_truediv (x y : Z) : result spec_float :=
  if y =? 0 then Raise ZeroDivisionError
  else if x =? 0 then Ok (S754_zero (y <? 0))
  else finite_or_overflow
         (Float64.round_quot (xorb (x <? 0) (y <? 0)) (Z.abs x) (Z.abs y)).

(** [a / b]: true division, a float for every pair of numbers. *)
Definition truediv (a b : pyval) : result spec_float :=
  match as_number a, as_number b with
  | Some (NInt x), Some (NInt y) => int_truediv x y
  | Some x, Some y =>
      fx ← to_float x; fy ← to_float y;
      if Float64.is_zero fy then Raise ZeroDivisionError
      else Ok (Float64.div fx fy)
  | _, _ => Raise TypeError
  end.

(** [int(f)] on a float. *)
Definition int_of_float (f : spec_float) : result pyval :=
  match f with
  | S754_infinity _ => Raise OverflowError
  | S754_nan => Raise ValueError
  | _ => match Float64.trunc f with
         | Some z => Ok (VInt z)
         | None => Raise ValueError
         end
  end.

End Py.

(** ** Dictionaries

    A [dict] keeps its keys in insertion order; assigning to a key that is
    present keeps the key's position. *)

Module Dict.

Definition t (V : Type) : Type := list (string * V).

Section Ops.
Context {V : Type}.

Fixpoint get (d : t V) (k : string) : option V :=
  match d with
  | [] => None
  | (k', v) :: d' => if String.eqb k k' then Some v else get d' k
  end.

(** [d.get(k, default)]. *)
Definition get_default (d : t V) (k : string) (default : V) : V :=
  match get d k with
  | Some v => v
  | None => default
  end.

(** [d[k] = v]. *)
Fixpoint set (d : t V) (k : string) (v : V) : t V :=
  match d with
  | [] => [(k, v)]
  | (k', v') :: d' =>
      if String.eqb k k' then (k', v) :: d' else (k', v') :: set d' k v
  end.

(** [d.update(other)]. *)
Fixpoint update (d other : t V) : t V :=
  match other with
  | [] => d
  | (k, v) :: other' => update (set d k v) other'
  end.

(** [d.items()]. *)
Definition items (d : t V) : list (string * V) := d.

Definition keys (d : t V) : list string := map fst d.

(** The keys of a dictionary are pairwise distinct. *)
Definition wf (d : t V) : Prop := NoDup (keys d).
End Ops.

(** [k] is none of the keys [l]. *)
Definition absent_from (l : list string) (k : string) : bool :=
  negb (existsb (String.eqb k) l).

End Dict.

(** ** Paths and files *)

Module Os.

(** Directories that exist, and the text of the files that exist. *)
Record filesys := {
  dirs : gset string;
  files : gmap string string
}.

(** A computation on the file system.  The state survives an
    exception. *)
Definition io (A : Type) : Type := filesys -> result A * filesys.

#[global] Instance io_ret : MRet io := fun A a fs => (Ok a, fs).
#[global] Instance io_bind : MBind io := fun A B f m fs =>
  match m fs with
  | (Ok a, fs') => f a fs'
  | (Raise e, fs') => (Raise e, fs')
  end.

(** A computation that does not touch the file system. *)
Definition lift {A : Type} (r : result A) : io A := fun fs => (r, fs).

Definition is_sep (c : ascii) : bool := Ascii.eqb c "/".

Definition starts_with_sep (s : string) : bool :=
  match s with
  | String c _ => is_sep c
  | EmptyString => false
  end.

Fixpoint ends_with_sep (s : string) : bool :=
  match s with
  | EmptyString => false
  | String c EmptyString => is_sep c
  | String _ s' => ends_with_sep s'
  end.

(** [os.path.join(a, b)] of [posixpath]. *)
Definition path_join (a b : string) : string :=
  if starts_with_sep b then b
  else if String.eqb a EmptyString || ends_with_sep a then a +:+ b
  else a +:+ "/" +:+ b.

(** The directories [rest] lies under once [pre] has been read: each
    prefix that a separator follows. *)
Fixpoint ancestors_from (pre rest : string) : list string :=
  match rest with
  | EmptyString => []
  | String c rest' =>
      (if is_sep c && negb (String.eqb pre EmptyString) && negb (ends_with_sep pre)
       then [pre] else [])
      ++ ancestors_from (pre +:+ String c EmptyString) rest'
  end.

Definition ancestors (p : string) : list string :=
  ancestors_from EmptyString p.

(** The components of a path: the texts between separators. *)
Fixpoint components_from (cur rest : string) : list string :=
  match rest with
  | EmptyString => [cur]
  | String c rest' =>
      if is_sep c then cur :: components_from EmptyString rest'
      else components_from (cur +:+ String c EmptyString) rest'
  end.

Definition components (p : string) : list string :=
  components_from EmptyString p.

(** A path with a component [..] climbs: it can name a directory by
    another name than the prefixes of the path. *)
Definition climbs (p : string) : bool :=
  existsb (String.eqb "..") (components p).

(** The directory a path lies in, when it names one. *)
Definition parent (p : string) : option string := last (ancestors p).

Definition is_file (fs : filesys) (p : string) : bool :=
  bool_decide (is_Some (files fs !! p)).

Definition is_dir (fs : filesys) (p : string) : bool :=
  bool_decide (p ∈ dirs fs).

(** A name with a NUL is refused with [ValueError] before the system is
    asked. *)
Definition has_nul (s : string) : bool := Py.contains (ascii_of_N 0) s.

(** Length of the UTF-8 encoding. *)
Fixpoint utf8_length (s : string) : Z :=
  match s with
  | EmptyString => 0
  | String c s' => (if (N_of_ascii c <? 128)%N then 1 else 2) + utf8_length s'
  end.

(** The last component of a path. *)
Fixpoint basename (p : string) : string :=
  match p with
  | EmptyString => EmptyString
  | String c p' =>
      if Py.contains "/" p' then basename p'
      else if is_sep c then p' else p
  end.

(** The limits of Linux: 4095 bytes for a path, 255 for a component;
    beyond them the system answers [OSError] (name too long). *)
Definition path_too_long (p : string) : bool := 4095 <? utf8_length p.
Definition name_too_long (p : string) : bool := 255 <? utf8_length (basename p).

(** No refusal for the name of a directory to make, or of a file to
    open. *)
Definition name_ok (p : string) : bool :=
  negb (has_nul p) && negb (path_too_long p) && negb (name_too_long p).

(** The [mkdir] calls of [os.makedirs], from the topmost directory down.
    A directory that exists is left alone; a name with a NUL or too long
    stops the chain, with the directories above it made; a file in the way
    stops it too, with the error of the [mkdir] that meets it. *)
Fixpoint mkdir_chain (chain : list string) : io unit := fun fs =>
  match chain with
  | [] => (Ok tt, fs)
  | d :: rest =>
      if has_nul d then (Raise ValueError, fs)
      else if path_too_long d then (Raise OSError, fs)
      else if is_file fs d then
        match rest with
        | [] => (Raise FileExistsError, fs)
        | next :: _ =>
            (Raise (if has_nul next then ValueError
                    else if path_too_long next then OSError
                    else NotADirectoryError), fs)
        end
      else if name_too_long d then (Raise OSError, fs)
      else mkdir_chain rest {| dirs := dirs fs ∪ {[d]}; files := files fs |}
  end.

(** [os.makedirs(name, exist_ok=True)]: makes [name] and every missing
    directory above it. *)
Definition makedirs (name : string) : io unit :=
  mkdir_chain (ancestors name ++ [name]).

(** [open(p, 'w')]: the file is made or emptied. *)
Definition open_w (p : string) : io unit := fun fs =>
  if has_nul p then (Raise ValueError, fs)
  else if path_too_long p then (Raise OSError, fs)
  else if is_dir fs p then (Raise IsADirectoryError, fs)
  else
    match parent p with
    | Some d =>
        if is_dir fs d
        then
          if name_too_long p then (Raise OSError, fs)
          else (Ok tt, {| dirs := dirs fs; files := <[p := EmptyString]> (files fs) |})
        else if is_file fs d then (Raise NotADirectoryError, fs)
        else (Raise FileNotFoundError, fs)
    | None =>
        if name_too_long p then (Raise OSError, fs)
        else (Ok tt, {| dirs := dirs fs; files := <[p := EmptyString]> (files fs) |})
    end.

(** [f.write(text)] on the file opened at [p]. *)
Definition write (p text : string) : io unit := fun fs =>
  match files fs !! p with
  | Some old =>
      (Ok tt, {| dirs := dirs fs; files := <[p := old +:+ text]> (files fs) |})
  | None => (Raise ValueError, fs)
  end.

End Os.

(** ** The classes of [config.py] *)

Module Config.

Import Py.

(** *** [make_safe] *)

Definition make_safe (value : pyval) : result string :=
  if isinstance_bool value then s ← str_result value; Ok (lower s)
  else str_result value.

(** The text [make_safe] returns, when it returns. *)
Definition safe_text (value : pyval) : string :=
  if isinstance_bool value then lower (str value) else str value.

(** *** Objects: a class and an attribute dictionary *)

Inductive class :=
  | MonophoneConfig_t
  | TriphoneConfig_t
  | TriphoneFmllrConfig_t
  | LdaMlltConfig_t
  | DiagUbmConfig_t
  | iVectorExtractorConfig_t
  | NnetBasicConfig_t.

(** The names a class binds with [@property]; none has a setter. *)
Definition properties (c : class) : list string :=
  match c with
  | MonophoneConfig_t | TriphoneConfig_t | TriphoneFmllrConfig_t
  | LdaMlltConfig_t => ["max_iter_inc"; "inc_gauss_count"]
  | DiagUbmConfig_t | iVectorExtractorConfig_t | NnetBasicConfig_t => []
  end.

Definition is_property (c : class) (k : string) : bool :=
  existsb (String.eqb k) (properties c).

Record object := {
  ob_class : class;
  ob_dict : gmap string pyval
}.

Definition new (c : class) : object := {| ob_class := c; ob_dict := ∅ |}.

(** [self.k = v] for a name [k] written in the source; none of these
    names is a property. *)
Definition assign (self : object) (k : string) (v : pyval) : object :=
  {| ob_class := ob_class self; ob_dict := <[k := v]> (ob_dict self) |}.

(** [setattr(self, k, v)]: a property without a setter refuses, and so
    does [__weakref__]; [__class__] wants a class and [__dict__] a
    dictionary, which no value here is. *)
Definition setattr (self : object) (k : string) (v : pyval) : result object :=
  if is_property (ob_class self) k then Raise AttributeError
  else if String.eqb k "__weakref__" then Raise AttributeError
  else if String.eqb k "__class__" || String.eqb k "__dict__" then Raise TypeError
  else Ok (assign self k v).

(** The names [setattr] refuses on an object of class [c]. *)
Definition unassignable (c : class) (k : string) : bool :=
  is_property c k || String.eqb k "__weakref__"
  || String.eqb k "__class__" || String.eqb k "__dict__".

(** The keywords a constructor that stores its keywords cannot take:
    [self], and the names [setattr] refuses. *)
Definition refused (c : class) (k : string) : bool :=
  String.eqb k "self" || unassignable c k.

(** Passing keywords to [__init__(self, ...)]: a keyword named [self]
    collides with the first parameter. *)
Definition bind_keywords {A : Type} (kwargs : Dict.t pyval) (body : result A) : result A :=
  match Dict.get kwargs "self" with
  | Some _ => Raise TypeError
  | None => body
  end.

(** [for k, v in kwargs.items(): setattr(self, k, v)]. *)
Fixpoint setattr_items (self : object) (kv : list (string * pyval)) : result object :=
  match kv with
  | [] => Ok self
  | (k, v) :: kv' => self' ← setattr self k v; setattr_items self' kv'
  end.

(** [self.k] for a stored attribute. *)
Definition field (self : object) (k : string) : result pyval :=
  match ob_dict self !! k with
  | Some v => Ok v
  | None => Raise AttributeError
  end.

Definition ints (l : list Z) : pyval := VList (map VInt l).
Definition strs (l : list string) : pyval := VList (map VStr l).

(** *** MonophoneConfig *)

Definition often_iters : list Z :=
  [1; 2; 3; 4; 5; 6; 7; 8; 9; 10; 12; 14; 16; 18; 20; 23; 26; 29; 32; 35; 38].

Definition seldom_iters : list Z := [1; 5; 10; 15; 20; 25; 30; 35; 38].

Definition scale_opts : pyval :=
  strs ["--transition-scale=1.0"; "--acoustic-scale=0.1"; "--self-loop-scale=0.1"].

(** [MonophoneConfig.__init__(self, **kwargs)], run on an object of
    class [c]. *)
Definition MonophoneConfig_init (c : class) (kwargs : Dict.t pyval) : result object :=
  bind_keywords kwargs $
  let self := new c in
  let self := assign self "num_iters" (VInt 40) in
  let self := assign self "scale_opts" scale_opts in
  let self := assign self "beam" (VInt 10) in
  let self := assign self "retry_beam" (VInt 40) in
  let self := assign self "max_gauss_count" (VInt 1000) in
  let self := assign self "boost_silence" (flt 10 (-1)) in
  let self :=
    if truthy (Dict.get_default kwargs "align_often" (VBool false))
    then assign self "realign_iters" (ints often_iters)
    else assign self "realign_iters" (ints seldom_iters) in
  let self := assign self "stage" (VInt (-4)) in
  let self := assign self "power" (flt 25 (-2)) in
  let self := assign self "do_fmllr" (VBool false) in
  let self := assign self "do_lda_mllt" (VBool false) in
  setattr_items self (Dict.items kwargs).

Definition MonophoneConfig (kwargs : Dict.t pyval) : result object :=
  MonophoneConfig_init MonophoneConfig_t kwargs.

(** [MonophoneConfig.max_iter_inc]. *)
Definition MonophoneConfig_max_iter_inc (self : object) : result pyval :=
  n ← field self "num_iters"; sub n (VInt 10).

(** [MonophoneConfig.inc_gauss_count]. *)
Definition MonophoneConfig_inc_gauss_count (self : object) : result pyval :=
  a ← field self "max_gauss_count";
  b ← field self "initial_gauss_count";
  d ← sub a b;
  c ← MonophoneConfig_max_iter_inc self;
  q ← truediv d c;
  int_of_float q.

(** *** TriphoneConfig *)

Definition TriphoneConfig_init (c : class) (kwargs : Dict.t pyval) : result object :=
  bind_keywords kwargs $
  let defaults : Dict.t pyval :=
    [("num_iters", VInt 35);
     ("initial_gauss_count", VInt 3100);
     ("max_gauss_count", VInt 50000);
     ("cluster_threshold", VInt 100);
     ("do_lda_mllt", VBool false)] in
  let defaults := Dict.update defaults kwargs in
  MonophoneConfig_init c defaults.

Definition TriphoneConfig (kwargs : Dict.t pyval) : result object :=
  TriphoneConfig_init TriphoneConfig_t kwargs.

(** *** TriphoneFmllrConfig *)

(** [TriphoneFmllrConfig.__init__(self, align_often=True, **kwargs)]: the
    body never reads [align_often]. *)
Definition TriphoneFmllrConfig_init (c : class) (align_often : pyval)
    (kwargs : Dict.t pyval) : result object :=
  bind_keywords kwargs $
  let defaults : Dict.t pyval :=
    [("do_fmllr", VBool true);
     ("do_lda_mllt", VBool false);
     ("fmllr_update_type", VStr "full");
     ("fmllr_iters", ints [2; 4; 6; 12]);
     ("fmllr_power", flt 2 (-1));
     ("silence_weight", flt 0 0)] in
  let defaults := Dict.update defaults kwargs in
  TriphoneConfig_init c defaults.

(** Removes a key, as binding a keyword to a named parameter does. *)
Definition without (k : string) (kw : Dict.t pyval) : Dict.t pyval :=
  List.filter (fun kv => negb (String.eqb (fst kv) k)) kw.

(** A call of [TriphoneFmllrConfig] with the keywords [kw]: the keyword
    [align_often] binds to the parameter of that name, the other
    keywords are [kwargs]. *)
Definition TriphoneFmllrConfig (kw : Dict.t pyval) : result object :=
  TriphoneFmllrConfig_init TriphoneFmllrConfig_t
    (Dict.get_default kw "align_often" (VBool true))
    (without "align_often" kw).

(** *** LdaMlltConfig *)

Definition splice_opts : pyval := strs ["--left-context=3"; "--right-context=3"].

Definition LdaMlltConfig (kwargs : Dict.t pyval) : result object :=
  bind_keywords kwargs $
  let self := new LdaMlltConfig_t in
  let self := assign self "num_iters" (VInt 13) in
  let self := assign self "do_fmllr" (VBool false) in
  let self := assign self "do_lda_mllt" (VBool true) in
  let self := assign self "scale_opts" scale_opts in
  let self := assign self "num_gauss" (VInt 5000) in
  let self := assign self "beam" (VInt 10) in
  let self := assign self "retry_beam" (VInt 40) in
  let self := assign self "initial_gauss_count" (VInt 5000) in
  let self := assign self "cluster_threshold" (VInt (-1)) in
  let self := assign self "max_gauss_count" (VInt 10000) in
  let self := assign self "boost_silence" (flt 10 (-1)) in
  let self := assign self "realign_iters" (ints [1; 2; 3; 4; 5; 6; 7; 8; 9; 10; 11; 12; 13]) in
  let self := assign self "stage" (VInt (-5)) in
  let self := assign self "power" (flt 25 (-2)) in
  let self := assign self "dim" (VInt 40) in
  let self := assign self "careful" (VBool false) in
  let self := assign self "randprune" (flt 40 (-1)) in
  let self := assign self "splice_opts" splice_opts in
  let self := assign self "cluster_thresh" (VInt (-1)) in
  let self := assign self "norm_vars" (VBool false) in
  setattr_items self (Dict.items kwargs).

(** [LdaMlltConfig.max_iter_inc]. *)
Definition LdaMlltConfig_max_iter_inc (self : object) : result pyval :=
  field self "num_iters".

(** [LdaMlltConfig.inc_gauss_count]. *)
Definition LdaMlltConfig_inc_gauss_count (self : object) : result pyval :=
  a ← field self "max_gauss_count";
  b ← field self "initial_gauss_count";
  d ← sub a b;
  c ← LdaMlltConfig_max_iter_inc self;
  q ← truediv d c;
  int_of_float q.

(** *** Attribute access *)

(** [self.k]: a property of the class runs its getter, any other name is
    looked up in the object. *)
Definition getattr (self : object) (k : string) : result pyval :=
  match ob_class self with
  | MonophoneConfig_t | TriphoneConfig_t | TriphoneFmllrConfig_t =>
      if String.eqb k "max_iter_inc" then MonophoneConfig_max_iter_inc self
      else if String.eqb k "inc_gauss_count" then MonophoneConfig_inc_gauss_count self
      else field self k
  | LdaMlltConfig_t =>
      if String.eqb k "max_iter_inc" then LdaMlltConfig_max_iter_inc self
      else if String.eqb k "inc_gauss_count" then LdaMlltConfig_inc_gauss_count self
      else field self k
  | DiagUbmConfig_t | iVectorExtractorConfig_t | NnetBasicConfig_t =>
      field self k
  end.

(** The classes whose [max_iter_inc] and [inc_gauss_count] are the ones
    [MonophoneConfig] defines. *)
Definition monophone_family (c : class) : bool :=
  match c with
  | MonophoneConfig_t | TriphoneConfig_t | TriphoneFmllrConfig_t => true
  | _ => false
  end.

(** *** DiagUbmConfig *)


(** *** iVectorExtractorConfig *)


(** *** NnetBasicConfig *)


(** *** MfccConfig *)

Import Os.

Record MfccConfig := {
  job : pyval;
  config_dict : Dict.t pyval;
  output_directory : string
}.

(** [MfccConfig.config_directory]. *)
Definition config_directory (self : MfccConfig) : io string :=
  let path := path_join (output_directory self) "config" in
  _ ← makedirs path;
  mret path.

(** [MfccConfig.path]. *)
Definition path (self : MfccConfig) : io string :=
  f ← lift (if is_none (job self) then Ok "mfcc.conf"
            else s ← format_result (job self); Ok ("mfcc." +:+ s +:+ ".conf"));
  d ← config_directory self;
  mret (path_join d f).

(** The file name [path] joins to the configuration directory. *)
Definition file_name (job : pyval) : string :=
  if is_none job then "mfcc.conf" else "mfcc." +:+ format job +:+ ".conf".

(** One line of the file, ['--{}={}\n'.format(k, s)], for the text [s] of
    the value. *)
Definition line_of (k s : string) : string :=
  "--" +:+ k +:+ "=" +:+ s +:+ newline.

(** The line of an item whose value [make_safe] converts. *)
Definition line (kv : string * pyval) : string :=
  line_of (fst kv) (safe_text (snd kv)).

(** [for k, v in self.config_dict.items():
      f.write('--{}={}\n'.format(k, make_safe(v)))]. *)
Fixpoint write_items (p : string) (kv : list (string * pyval)) : io unit :=
  match kv with
  | [] => mret tt
  | (k, v) :: kv' =>
      s ← lift (make_safe v);
      _ ← Os.write p (line_of k s);
      write_items p kv'
  end.

(** [MfccConfig.write]. *)
Definition write (self : MfccConfig) : io unit :=
  p ← path self;
  _ ← open_w p;
  write_items p (Dict.items (config_dict self)).

(** [MfccConfig.__init__(self, output_directory, job=None, kwargs=None)]:
    the object is returned when [write] returns. *)
Definition MfccConfig_init (output_directory : string) (job : pyval)
    (kwargs : option (Dict.t pyval)) : io MfccConfig :=
  let kwargs := match kwargs with None => [] | Some kw => kw end in
  let self :=
    {| job := job;
       config_dict :=
         Dict.update [("use-energy", VBool false); ("frame-shift", VInt 10)] kwargs;
       output_directory := output_directory |} in
  _ ← write self;
  mret self.

(** The object after [self.config_dict.update(kwargs)]. *)
Definition updated (self : MfccConfig) (kwargs : Dict.t pyval) : MfccConfig :=
  {| job := job self;
     config_dict := Dict.update (config_dict self) kwargs;
     output_directory := output_directory self |}.

(** [MfccConfig.update(self, kwargs)]: the dictionary is changed, then
    the file is written. *)
Definition update (self : MfccConfig) (kwargs : Dict.t pyval) : MfccConfig * io unit :=
  let self := updated self kwargs in
  (self, write self).

(** Where [path] points. *)
Definition mfcc_path (self : MfccConfig) : string :=
  path_join (path_join (output_directory self) "config") (file_name (job self)).

(** A file system with no directory and no file yet. *)
Definition empty_fs : filesys := {| dirs := ∅; files := ∅ |}.

(** Every value of the dictionary is plain. *)
Definition plain_items (d : Dict.t pyval) : bool :=
  forallb (fun kv => plain (snd kv)) d.

(** No value of the dictionary is a list. *)
Definition no_list (d : Dict.t pyval) : bool :=
  forallb (fun kv => negb (is_list (snd kv))) d.

(** Every value of the dictionary is one that [str] converts. *)
Definition convertible (d : Dict.t pyval) : bool :=
  forallb (fun kv => negb (repr_refuses (snd kv))) d.

(** The items before the first whose value [str] refuses. *)
Fixpoint converted (d : Dict.t pyval) : Dict.t pyval :=
  match d with
  | [] => []
  | kv :: d' => if repr_refuses (snd kv) then [] else kv :: converted d'
  end.

(** Nothing in the object itself stops [write]: the job is plain and its
    file name has no separator, the names of the directories and of the
    file are accepted, the values are plain. *)
Definition writable (self : MfccConfig) : bool :=
  let cfg := path_join (output_directory self) "config" in
  plain (job self)
  && negb (contains "/" (file_name (job self)))
  && forallb name_ok (ancestors cfg ++ [cfg])
  && name_ok (mfcc_path self)
  && plain_items (config_dict self).

(** The text of the file for a dictionary: its lines, in order. *)
Fixpoint render (d : Dict.t pyval) : string :=
  match d with
  | [] => EmptyString
  | kv :: d' => line kv +:+ render d'
  end.

(** A directory name, closed by a separator unless it is empty or has
    one. *)
Definition dir_prefix (d : string) : string :=
  if String.eqb d EmptyString || ends_with_sep d then d else d +:+ "/".

End Config.

(** * Properties *)

(** ** Rounding a quotient to binary64 *)

Module Float64Facts.

Import Float64.

Lemma div_rne_bounds n d :
  0 <= n -> 0 < d ->
  let m := div_rne n d in
  (m = n / d \/ (m = n / d + 1 /\ d <= 2 * (n mod d))).
Proof.
  intros Hn Hd. unfold div_rne. cbv zeta.
  destruct (Z.ltb_spec (2 * (n mod d)) d); [left; reflexivity|].
  destruct (Z.ltb_spec d (2 * (n mod d))); [right; lia|].
  destruct (Z.even (n / d)); [left; reflexivity | right; lia].
Qed.

Lemma scaled_nonneg a b e : 0 <= e -> scaled a b e = (a, b * 2 ^ e).
Proof. intros H. unfold scaled. destruct (Z.leb_spec 0 e); [reflexivity | lia]. Qed.

Lemma scaled_neg a b e : e < 0 -> scaled a b e = (a * 2 ^ (- e), b).
Proof. intros H. unfold scaled. destruct (Z.leb_spec 0 e); [lia | reflexivity]. Qed.

(** Raising the exponent by [k] divides the fraction by [2^k]. *)
Lemma scaled_shift a b e k :
  0 <= k ->
  fst (scaled a b (e + k)) * snd (scaled a b e) * 2 ^ k
  = fst (scaled a b e) * snd (scaled a b (e + k)).
Proof.
  intros Hk.
  destruct (Z.leb_spec 0 e) as [He|He].
  - rewrite !scaled_nonneg by lia. cbn [fst snd].
    rewrite Z.pow_add_r by lia. ring.
  - destruct (Z.leb_spec 0 (e + k)) as [Hek|Hek].
    + rewrite scaled_nonneg by lia. rewrite scaled_neg by lia. cbn [fst snd].
      replace k with ((e + k) + (- e)) at 1 by lia.
      rewrite (Z.pow_add_r 2 (e + k) (- e)) by lia. ring.
    + rewrite !scaled_neg by lia. cbn [fst snd].
      replace (- e) with (- (e + k) + k) by lia.
      rewrite Z.pow_add_r by lia. ring.
Qed.

Lemma scaled_pos a b e :
  0 < a -> 0 < b -> 0 < fst (scaled a b e) /\ 0 < snd (scaled a b e).
Proof.
  intros Ha Hb. unfold scaled.
  destruct (Z.leb_spec 0 e); cbn [fst snd]; split; try lia;
    (apply Z.mul_pos_pos; [lia | apply Z.pow_pos_nonneg; lia]).
Qed.

(** At the first guess the fraction lies in [(2^52, 2^54)]. *)
Lemma scaled_guess a b :
  0 < a -> 0 < b ->
  let e0 := Z.log2 a - Z.log2 b - prec in
  2 ^ 52 * snd (scaled a b e0) <= fst (scaled a b e0)
  /\ fst (scaled a b e0) < 2 ^ 54 * snd (scaled a b e0).
Proof.
  intros Ha Hb e0.
  pose proof (Z.log2_spec a Ha) as [La Ua].
  pose proof (Z.log2_spec b Hb) as [Lb Ub].
  pose proof (Z.log2_nonneg a) as Hla.
  pose proof (Z.log2_nonneg b) as Hlb.
  rewrite <- Z.add_1_r in Ua, Ub.
  rewrite Z.pow_add_r in Ua, Ub by lia.
  change (2 ^ 1) with 2 in *.
  set (la := Z.log2 a) in *. set (lb := Z.log2 b) in *.
  unfold prec in e0.
  destruct (Z.leb_spec 0 e0) as [He|He].
  - rewrite scaled_nonneg by lia. cbn [fst snd].
    assert (Hla' : 2 ^ la = 2 ^ lb * 2 ^ 53 * 2 ^ e0).
    { rewrite <- !Z.pow_add_r by lia. f_equal. lia. }
    assert (0 < 2 ^ e0) by (apply Z.pow_pos_nonneg; lia).
    assert (0 < 2 ^ lb) by (apply Z.pow_pos_nonneg; lia).
    change (2 ^ 53) with 9007199254740992 in *.
    change (2 ^ 52) with 4503599627370496 in *.
    change (2 ^ 54) with 18014398509481984 in *.
    nia.
  - rewrite scaled_neg by lia. cbn [fst snd].
    assert (Hlb' : 2 ^ la * 2 ^ (- e0) = 2 ^ lb * 2 ^ 53).
    { rewrite <- !Z.pow_add_r by lia. f_equal. lia. }
    assert (0 < 2 ^ (- e0)) by (apply Z.pow_pos_nonneg; lia).
    assert (0 < 2 ^ lb) by (apply Z.pow_pos_nonneg; lia).
    change (2 ^ 53) with 9007199254740992 in *.
    change (2 ^ 52) with 4503599627370496 in *.
    change (2 ^ 54) with 18014398509481984 in *.
    nia.
Qed.

Lemma cross_lt n d n' d' k c :
  0 < d -> 0 < d' -> n' * d * k = n * d' -> n < c * d -> n' * k < c * d'.
Proof.
  intros Hd Hd' E H.
  apply (Z.mul_lt_mono_pos_r d); [assumption|].
  replace (n' * k * d) with (n * d') by lia.
  replace (c * d' * d) with (c * d * d') by ring.
  apply Z.mul_lt_mono_pos_r; assumption.
Qed.

Lemma cross_le n d n' d' k c :
  0 < d -> 0 < d' -> n' * d * k = n * d' -> c * d <= n -> c * d' <= n' * k.
Proof.
  intros Hd Hd' E H.
  apply (Z.mul_le_mono_pos_r _ _ d); [assumption|].
  replace (n' * k * d) with (n * d') by lia.
  replace (c * d' * d) with (c * d * d') by ring.
  apply Z.mul_le_mono_nonneg_r; lia.
Qed.

Lemma ulp_exp_spec a b :
  0 < a -> 0 < b ->
  let e := ulp_exp a b in
  emin <= e
  /\ fst (scaled a b e) < 2 ^ 53 * snd (scaled a b e)
  /\ (e = emin \/ 2 ^ 52 * snd (scaled a b e) <= fst (scaled a b e)).
Proof.
  intros Ha Hb.
  pose proof (scaled_guess a b Ha Hb) as [G1 G2]. cbv zeta in G1, G2.
  unfold ulp_exp. set (e0 := Z.log2 a - Z.log2 b - prec) in *.
  assert (N : exists e1,
    (if fst (scaled a b e0) <? 2 ^ prec * snd (scaled a b e0)
     then e0 else e0 + 1) = e1
    /\ fst (scaled a b e1) < 2 ^ 53 * snd (scaled a b e1)
    /\ 2 ^ 52 * snd (scaled a b e1) <= fst (scaled a b e1)).
  { unfold prec.
    destruct (Z.ltb_spec (fst (scaled a b e0)) (2 ^ 53 * snd (scaled a b e0))).
    - exists e0. auto.
    - exists (e0 + 1). split; [reflexivity|].
      pose proof (scaled_shift a b e0 1 ltac:(lia)) as S.
      pose proof (scaled_pos a b e0 Ha Hb) as [_ Hd0].
      pose proof (scaled_pos a b (e0 + 1) Ha Hb) as [_ Hd1].
      change (2 ^ 1) with 2 in S.
      pose proof (cross_lt _ _ _ _ _ _ Hd0 Hd1 S G2).
      pose proof (cross_le _ _ _ _ _ _ Hd0 Hd1 S H).
      change (2 ^ 53) with 9007199254740992 in *.
      change (2 ^ 52) with 4503599627370496 in *.
      change (2 ^ 54) with 18014398509481984 in *.
      lia. }
  destruct N as (e1 & E1 & U1 & L1).
  destruct (scaled a b e0) as [n0 d0] eqn:S0. cbn [fst snd] in E1.
  cbv zeta. rewrite E1.
  destruct (Z.max_spec emin e1) as [[Hlt ->] | [Hle ->]].
  - split; [lia|]. auto.
  - split; [lia|]. split; [|left; reflexivity].
    pose proof (scaled_shift a b e1 (emin - e1) ltac:(lia)) as S.
    replace (e1 + (emin - e1)) with emin in S by lia.
    pose proof (scaled_pos a b e1 Ha Hb) as [_ Hd1].
    pose proof (scaled_pos a b emin Ha Hb) as [Hnm Hdm].
    assert (0 < 2 ^ (emin - e1)) by (apply Z.pow_pos_nonneg; lia).
    pose proof (cross_lt _ _ _ _ _ _ Hd1 Hdm S U1).
    change (2 ^ 53) with 9007199254740992 in *.
    change (2 ^ 52) with 4503599627370496 in *.
    nia.
Qed.

Lemma trunc_pack s m e :
  0 <= m <= 2 ^ 53 -> e <= 0 ->
  trunc (pack s m e) = Some (if s then - (m / 2 ^ (- e)) else m / 2 ^ (- e)).
Proof.
  intros Hm He. unfold pack, prec, emax.
  destruct (Z.eqb_spec m (2 ^ 53)) as [->|Hne].
  - change (2 ^ (53 - 1)) with (Zpos 4503599627370496).
    cbv iota beta.
    destruct (Z.leb_spec (e + 1) (1024 - 53)); [|lia].
    cbn [trunc].
    assert (E : 2 ^ 53 / 2 ^ (- e)
                = if 0 <=? e + 1 then 4503599627370496 * 2 ^ (e + 1)
                  else 4503599627370496 / 2 ^ (- (e + 1))).
    { destruct (Z.leb_spec 0 (e + 1)).
      - assert (e = -1 \/ e = 0) as [-> | ->] by lia; reflexivity.
      - replace (- e) with (1 + - (e + 1)) by lia.
        rewrite Z.pow_add_r by lia.
        rewrite <- Z.div_div by (try apply Z.pow_pos_nonneg; lia).
        reflexivity. }
    rewrite E. reflexivity.
  - destruct m as [|p|p]; [| |lia].
    + cbn [trunc]. rewrite Z.div_0_l by (apply Z.pow_nonzero; lia).
      destruct s; reflexivity.
    + destruct (Z.leb_spec e (1024 - 53)); [|lia].
      cbn [trunc].
      destruct (Z.leb_spec 0 e).
      * assert (e = 0) as -> by lia. cbn [Z.opp]. rewrite Z.pow_0_r, Z.mul_1_r, Z.div_1_r.
        reflexivity.
      * reflexivity.
Qed.

Lemma trunc_round_quot s a b :
  0 < a < 2 ^ 53 -> 0 < b ->
  trunc (round_quot s a b) = Some (if s then - (a / b) else a / b).
Proof.
  intros [Ha Ha53] Hb. unfold round_quot.
  pose proof (ulp_exp_spec a b Ha Hb) as (Hmin & Hup & Hnorm).
  cbv zeta in Hmin, Hup, Hnorm.
  pose proof (scaled_pos a b (ulp_exp a b) Ha Hb) as [Hn Hd].
  set (e := ulp_exp a b) in *.
  assert (He : e <= 0).
  { destruct (Z.leb_spec e 0) as [|Hpos]; [assumption | exfalso].
    destruct Hnorm as [E | N]; [unfold emin in E; lia|].
    rewrite scaled_nonneg in N by lia. cbn [fst snd] in N.
    assert (2 <= 2 ^ e).
    { change 2 with (2 ^ 1) at 1. apply Z.pow_le_mono_r; lia. }
    change (2 ^ 53) with 9007199254740992 in *.
    change (2 ^ 52) with 4503599627370496 in *.
    nia. }
  destruct (scaled a b e) as [n d] eqn:S. cbn [fst snd] in *.
  pose proof (div_rne_bounds n d ltac:(lia) Hd) as Hm. cbv zeta in Hm.
  assert (Hq : 0 <= n / d < 2 ^ 53).
  { split; [apply Z.div_pos; lia|].
    apply Z.div_lt_upper_bound; lia. }
  set (m := div_rne n d) in *.
  rewrite trunc_pack by lia.
  assert (E : m / 2 ^ (- e) = a / b); [|rewrite E; reflexivity].
  destruct (Z.eq_dec e 0) as [E0 | E0].
  - rewrite E0 in *. rewrite scaled_nonneg in S by lia.
    injection S as <- <-. rewrite Z.pow_0_r, Z.mul_1_r in *.
    cbn [Z.opp]. rewrite ?Z.pow_0_r, ?Z.div_1_r.
    destruct Hnorm as [E | N]; [discriminate E|].
    assert (b = 1).
    { change (2 ^ 53) with 9007199254740992 in *.
      change (2 ^ 52) with 4503599627370496 in *. lia. }
    subst b. rewrite Z.mod_1_r in Hm. lia.
  - rewrite scaled_neg in S by lia. injection S as <- <-.
    assert (HP : 2 <= 2 ^ (- e)).
    { change 2 with (2 ^ 1) at 1. apply Z.pow_le_mono_r; lia. }
    set (P := 2 ^ (- e)) in *.
    pose proof (Z.div_mod a b ltac:(lia)) as Dab.
    pose proof (Z.mod_pos_bound a b Hb) as Rab.
    pose proof (Z.div_mod (a * P) b ltac:(lia)) as Dn.
    pose proof (Z.mod_pos_bound (a * P) b Hb) as Rn.
    set (Q := a / b) in *. set (r0 := a mod b) in *.
    set (q := a * P / b) in *. set (r := (a * P) mod b) in *.
    assert (Lq : Q * P <= q).
    { apply Z.div_le_lower_bound; [lia|]. nia. }
    assert (Uq : q < (Q + 1) * P).
    { apply Z.div_lt_upper_bound; [lia|]. nia. }
    assert (Um : m < (Q + 1) * P).
    { destruct Hm as [-> | [-> Hr]]; [lia|].
      destruct (Z.eq_dec (q + 1) ((Q + 1) * P)) as [Eq | Nq]; [exfalso | lia].
      assert (B : 2 * P <= b) by nia.
      destruct Hnorm as [E | N].
      + assert (P = 2 ^ 1074) by (unfold P; rewrite E; reflexivity).
        assert (2 ^ 53 < 2 ^ 1074) by (apply Z.pow_lt_mono_r; lia).
        assert (Q = 0) by (apply Z.div_small; lia).
        nia.
      + change (2 ^ 53) with 9007199254740992 in *.
        change (2 ^ 52) with 4503599627370496 in *.
        nia. }
    assert (Lm : Q * P <= m) by (destruct Hm as [-> | [-> _]]; lia).
    symmetry. apply (Z.div_unique m P Q (m - Q * P)); lia.
Qed.

End Float64Facts.

(** ** True division of integers, then [int] *)

Module PyFacts.

Import Py.

Lemma finite_or_overflow_trunc f z :
  Float64.trunc f = Some z -> finite_or_overflow f = Ok f.
Proof. destruct f; simpl; intros H; try reflexivity; discriminate H. Qed.

Lemma int_of_float_trunc f z :
  Float64.trunc f = Some z -> int_of_float f = Ok (VInt z).
Proof.
  destruct f; simpl; intros H; try discriminate H; injection H as <-; reflexivity.
Qed.

(** Below [2^53] the float between the division and [int] loses nothing:
    the result is the quotient truncated toward zero. *)
Lemma int_truediv_quot x y :
  Z.abs x < 2 ^ 53 -> y <> 0 ->
  int_truediv x y ≫= int_of_float = Ok (VInt (x ÷ y)).
Proof.
  intros Hx Hy. unfold int_truediv.
  destruct (Z.eqb_spec y 0) as [|_]; [contradiction|].
  destruct (Z.eqb_spec x 0) as [->|Hx0].
  - rewrite Z.quot_0_l by assumption. reflexivity.
  - pose proof (Float64Facts.trunc_round_quot
                  (xorb (x <? 0) (y <? 0)) (Z.abs x) (Z.abs y)
                  ltac:(lia) ltac:(lia)) as T.
    rewrite (finite_or_overflow_trunc _ _ T). simpl.
    rewrite (int_of_float_trunc _ _ T). do 2 f_equal.
    rewrite <- Z.quot_div_nonneg by lia.
    destruct (Z.ltb_spec x 0), (Z.ltb_spec y 0); simpl.
    + rewrite !Z.abs_neq by lia. rewrite Z.quot_opp_opp by lia. reflexivity.
    + rewrite (Z.abs_neq x), (Z.abs_eq y) by lia.
      rewrite Z.quot_opp_l by lia. lia.
    + rewrite (Z.abs_eq x), (Z.abs_neq y) by lia.
      rewrite Z.quot_opp_r by lia. lia.
    + rewrite !Z.abs_eq by lia. reflexivity.
Qed.

Lemma int_truediv_zero x : int_truediv x 0 = Raise ZeroDivisionError.
Proof. reflexivity. Qed.




Lemma plain_not_refused (v : Py.pyval) : Py.plain v = true -> Py.repr_refuses v = false.
Proof.
  destruct v; simpl; try reflexivity; [|discriminate].
  intros H. apply negb_true_iff, H.
Qed.





End PyFacts.

(** ** Dictionaries *)

Module DictFacts.

Section Facts.
Context {V : Type}.
Implicit Types (d kw : Dict.t V) (k : string) (v : V).

Lemma get_set_eq d k v : Dict.get (Dict.set d k v) k = Some v.
Proof.
  induction d as [|[k' v'] d IH]; simpl.
  - rewrite String.eqb_refl. reflexivity.
  - destruct (String.eqb_spec k k') as [->|Hne]; simpl.
    + rewrite String.eqb_refl. reflexivity.
    + destruct (String.eqb_spec k k'); [contradiction | exact IH].
Qed.

Lemma get_set_ne d k k' v : k <> k' -> Dict.get (Dict.set d k v) k' = Dict.get d k'.
Proof.
  intros Hne. induction d as [|[k0 v0] d IH]; simpl.
  - destruct (String.eqb_spec k' k); [congruence | reflexivity].
  - destruct (String.eqb_spec k k0) as [->|Hk]; simpl.
    + destruct (String.eqb_spec k' k0); [congruence | reflexivity].
    + destruct (String.eqb_spec k' k0); [reflexivity | exact IH].
Qed.

(** A key that [other] lacks keeps its value through [update]. *)
Lemma get_update_other d kw k :
  Dict.get kw k = None -> Dict.get (Dict.update d kw) k = Dict.get d k.
Proof.
  revert d. induction kw as [|[k' v'] kw IH]; intros d H; simpl in *.
  - reflexivity.
  - destruct (String.eqb_spec k k') as [->|Hne]; [discriminate H|].
    rewrite IH by assumption. apply get_set_ne. congruence.
Qed.

Lemma keys_set_in d k v : In k (Dict.keys d) -> Dict.keys (Dict.set d k v) = Dict.keys d.
Proof.
  induction d as [|[k' v'] d IH]; simpl; intros H; [contradiction|].
  destruct (String.eqb_spec k k') as [->|Hne]; simpl; [reflexivity|].
  f_equal. apply IH. destruct H; [congruence | assumption].
Qed.

Lemma keys_set_notin d k v :
  ~ In k (Dict.keys d) -> Dict.keys (Dict.set d k v) = Dict.keys d ++ [k].
Proof.
  induction d as [|[k' v'] d IH]; simpl; intros H; [reflexivity|].
  destruct (String.eqb_spec k k') as [->|Hne]; simpl.
  - exfalso. apply H. left. reflexivity.
  - f_equal. apply IH. intros Hin. apply H. right. assumption.
Qed.

(** Assignment keeps the keys distinct and in place. *)
Lemma wf_set d k v : Dict.wf d -> Dict.wf (Dict.set d k v).
Proof.
  unfold Dict.wf. intros Hd.
  destruct (in_dec string_dec k (Dict.keys d)) as [Hin | Hnin].
  - rewrite keys_set_in by assumption. assumption.
  - rewrite keys_set_notin by assumption.
    apply NoDup_app. split; [assumption|]. split.
    + intros x Hx Hx'. apply list_elem_of_In in Hx, Hx'.
      destruct Hx' as [<- | []]. contradiction.
    + apply NoDup_singleton.
Qed.

Lemma wf_update d kw : Dict.wf d -> Dict.wf (Dict.update d kw).
Proof.
  revert d. induction kw as [|[k v] kw IH]; intros d Hd; simpl.
  - assumption.
  - apply IH, wf_set, Hd.
Qed.

End Facts.

End DictFacts.

(** ** Objects and their derived properties *)

Module ConfigFacts.

Import Py Config.

(** When [setattr] returns, it has stored the value. *)
Lemma setattr_ok self k v o : setattr self k v = Ok o -> o = assign self k v.
Proof.
  unfold setattr. destruct (is_property (ob_class self) k); [discriminate|].
  destruct (String.eqb k "__weakref__"); [discriminate|].
  destruct (String.eqb k "__class__" || String.eqb k "__dict__"); [discriminate|].
  intros H. injection H as <-. reflexivity.
Qed.

Lemma setattr_items_cons self k v kv o :
  setattr_items self ((k, v) :: kv) = Ok o ->
  setattr self k v = Ok (assign self k v)
  /\ setattr_items (assign self k v) kv = Ok o.
Proof.
  simpl. destruct (setattr self k v) as [o'|e] eqn:E; [|discriminate].
  apply setattr_ok in E as ->. auto.
Qed.

Lemma setattr_items_class self kv o :
  setattr_items self kv = Ok o -> ob_class o = ob_class self.
Proof.
  revert self. induction kv as [|[k v] kv IH]; intros self H.
  - simpl in H. injection H as <-. reflexivity.
  - apply setattr_items_cons in H as [_ H]. apply IH in H. exact H.
Qed.

(** A name that is no key of the keywords keeps the attribute it had. *)
Lemma setattr_items_other self kv o k :
  setattr_items self kv = Ok o -> Dict.get kv k = None ->
  ob_dict o !! k = ob_dict self !! k.
Proof.
  revert self. induction kv as [|[k' v] kv IH]; intros self H G; simpl in G.
  - simpl in H. injection H as <-. reflexivity.
  - destruct (String.eqb_spec k k') as [->|Hne]; [discriminate G|].
    apply setattr_items_cons in H as [_ H].
    rewrite (IH _ H G). simpl.
    apply lookup_insert_ne. congruence.
Qed.

Lemma field_lookup self k v : ob_dict self !! k = Some v -> field self k = Ok v.
Proof. intros H. unfold field. rewrite H. reflexivity. Qed.

Lemma field_missing self k : ob_dict self !! k = None -> field self k = Raise AttributeError.
Proof. intros H. unfold field. rewrite H. reflexivity. Qed.

Lemma getattr_max_iter_inc self :
  monophone_family (ob_class self) = true ->
  getattr self "max_iter_inc" = MonophoneConfig_max_iter_inc self.
Proof. unfold getattr. destruct (ob_class self); simpl; intros H; (reflexivity || discriminate H). Qed.

Lemma getattr_inc_gauss_count self :
  monophone_family (ob_class self) = true ->
  getattr self "inc_gauss_count" = MonophoneConfig_inc_gauss_count self.
Proof. unfold getattr. destruct (ob_class self); simpl; intros H; (reflexivity || discriminate H). Qed.

Lemma getattr_lda_max_iter_inc self :
  ob_class self = LdaMlltConfig_t ->
  getattr self "max_iter_inc" = LdaMlltConfig_max_iter_inc self.
Proof. unfold getattr. intros ->. reflexivity. Qed.

Lemma getattr_lda_inc_gauss_count self :
  ob_class self = LdaMlltConfig_t ->
  getattr self "inc_gauss_count" = LdaMlltConfig_inc_gauss_count self.
Proof. unfold getattr. intros ->. reflexivity. Qed.

(** [inc_gauss_count] of [MonophoneConfig] on integer attributes. *)
Lemma mono_inc_gauss_count_ints self M I n :
  ob_dict self !! "max_gauss_count" = Some (VInt M) ->
  ob_dict self !! "initial_gauss_count" = Some (VInt I) ->
  ob_dict self !! "num_iters" = Some (VInt n) ->
  MonophoneConfig_inc_gauss_count self
  = int_truediv (M - I) (n - 10) ≫= int_of_float.
Proof.
  intros HM HI Hn. unfold MonophoneConfig_inc_gauss_count, MonophoneConfig_max_iter_inc.
  rewrite (field_lookup _ _ _ HM), (field_lookup _ _ _ HI), (field_lookup _ _ _ Hn).
  reflexivity.
Qed.

(** [inc_gauss_count] of [LdaMlltConfig] on integer attributes. *)
Lemma lda_inc_gauss_count_ints self M I n :
  ob_dict self !! "max_gauss_count" = Some (VInt M) ->
  ob_dict self !! "initial_gauss_count" = Some (VInt I) ->
  ob_dict self !! "num_iters" = Some (VInt n) ->
  LdaMlltConfig_inc_gauss_count self
  = int_truediv (M - I) n ≫= int_of_float.
Proof.
  intros HM HI Hn. unfold LdaMlltConfig_inc_gauss_count, LdaMlltConfig_max_iter_inc.
  rewrite (field_lookup _ _ _ HM), (field_lookup _ _ _ HI), (field_lookup _ _ _ Hn).
  reflexivity.
Qed.


Lemma bind_keywords_ok {A : Type} (kwargs : Dict.t pyval) (body : result A) (a : A) :
  bind_keywords kwargs body = Ok a -> body = Ok a.
Proof. unfold bind_keywords. destruct (Dict.get kwargs "self"); [discriminate | auto]. Qed.

Lemma TriphoneConfig_init_inv (c : class) (kwargs : Dict.t pyval) (o : object) :
  TriphoneConfig_init c kwargs = Ok o ->
  MonophoneConfig_init c
    (Dict.update
       [("num_iters", VInt 35); ("initial_gauss_count", VInt 3100);
        ("max_gauss_count", VInt 50000); ("cluster_threshold", VInt 100);
        ("do_lda_mllt", VBool false)] kwargs) = Ok o.
Proof. unfold TriphoneConfig_init. apply bind_keywords_ok. Qed.

Lemma TriphoneFmllrConfig_init_inv (c : class) (a : pyval) (kwargs : Dict.t pyval)
    (o : object) :
  TriphoneFmllrConfig_init c a kwargs = Ok o ->
  TriphoneConfig_init c
    (Dict.update
       [("do_fmllr", VBool true); ("do_lda_mllt", VBool false);
        ("fmllr_update_type", VStr "full"); ("fmllr_iters", ints [2; 4; 6; 12]);
        ("fmllr_power", flt 2 (-1)); ("silence_weight", flt 0 0)] kwargs) = Ok o.
Proof. unfold TriphoneFmllrConfig_init. apply bind_keywords_ok. Qed.

End ConfigFacts.

(** ** Paths and files *)

Module OsFacts.

Import Py Config Os.

Lemma append_cons (x : ascii) (a b : string) : String x a +:+ b = String x (a +:+ b).
Proof. reflexivity. Qed.

Lemma append_empty_l (b : string) : EmptyString +:+ b = b.
Proof. reflexivity. Qed.

Lemma append_assoc (a b c : string) : (a +:+ b) +:+ c = a +:+ b +:+ c.
Proof.
  induction a as [|x a IH]; [reflexivity|].
  rewrite !append_cons, IH. reflexivity.
Qed.

Lemma length_append (a b : string) :
  String.length (a +:+ b) = (String.length a + String.length b)%nat.
Proof.
  induction a as [|x a IH]; [reflexivity|].
  rewrite append_cons. simpl. rewrite IH. reflexivity.
Qed.

Lemma append_nonempty (a b : string) :
  b <> EmptyString -> String.eqb (a +:+ b) EmptyString = false.
Proof.
  intros Hb. destruct a; [|reflexivity].
  rewrite append_empty_l. destruct b; [contradiction | reflexivity].
Qed.

(** A name that ends in a suffix without final separator has none. *)
Lemma ends_with_sep_append (a b : string) :
  b <> EmptyString -> ends_with_sep (a +:+ b) = ends_with_sep b.
Proof.
  intros Hb. induction a as [|x a IH]; [reflexivity|].
  rewrite append_cons. simpl.
  destruct (a +:+ b) eqn:E; [|exact IH].
  apply (f_equal String.length) in E. rewrite length_append in E.
  destruct b; [contradiction | simpl in E; lia].
Qed.

Lemma path_join_config (d : string) : path_join d "config" = dir_prefix d +:+ "config".
Proof.
  unfold path_join, dir_prefix. simpl.
  destruct (String.eqb d EmptyString || ends_with_sep d); [reflexivity|].
  rewrite append_assoc. reflexivity.
Qed.

Lemma file_name_no_sep (j : pyval) : starts_with_sep (file_name j) = false.
Proof. unfold file_name. destruct (is_none j); reflexivity. Qed.

(** The path of the file, spelled out. *)
Lemma mfcc_path_spelled (self : MfccConfig) :
  mfcc_path self
  = dir_prefix (output_directory self) +:+ "config/" +:+ file_name (job self).
Proof.
  unfold mfcc_path. rewrite path_join_config. unfold path_join.
  rewrite file_name_no_sep.
  rewrite append_nonempty by discriminate.
  rewrite ends_with_sep_append by discriminate. simpl.
  rewrite append_assoc. reflexivity.
Qed.

Lemma make_safe_run (v : pyval) :
  make_safe v = if repr_refuses v then Raise ValueError else Ok (safe_text v).
Proof.
  unfold make_safe, safe_text, str_result.
  destruct (isinstance_bool v) eqn:B; [|reflexivity].
  destruct v; try discriminate B. reflexivity.
Qed.

Lemma is_file_same_files (fs : filesys) (ds : gset string) (d : string) :
  is_file {| dirs := ds; files := files fs |} d = is_file fs d.
Proof. reflexivity. Qed.

(** [makedirs] never touches a file. *)
Lemma mkdir_chain_files (chain : list string) (fs : filesys) :
  files (snd (mkdir_chain chain fs)) = files fs.
Proof.
  revert fs. induction chain as [|d rest IH]; intros fs; cbn [mkdir_chain].
  - reflexivity.
  - destruct (has_nul d); [reflexivity|].
    destruct (path_too_long d); [reflexivity|].
    destruct (is_file fs d); [destruct rest; reflexivity|].
    destruct (name_too_long d); [reflexivity|].
    rewrite IH. reflexivity.
Qed.

Lemma mkdir_chain_run (chain : list string) (fs : filesys) :
  forallb name_ok chain = true -> existsb (is_file fs) chain = false ->
  mkdir_chain chain fs
  = (Ok tt, {| dirs := dirs fs ∪ list_to_set chain; files := files fs |}).
Proof.
  revert fs. induction chain as [|d rest IH]; intros fs N F.
  - simpl. rewrite (right_id_L ∅ (∪)). destruct fs. reflexivity.
  - cbn [forallb] in N. apply andb_true_iff in N as [Nd N].
    cbn [existsb] in F. apply orb_false_iff in F as [Fd F].
    unfold name_ok in Nd. apply andb_true_iff in Nd as [Nd N3].
    apply andb_true_iff in Nd as [N1 N2].
    apply negb_true_iff in N1, N2, N3.
    cbn [mkdir_chain]. rewrite N1, N2, Fd, N3.
    rewrite IH by assumption. simpl.
    rewrite (assoc_L (∪)). reflexivity.
Qed.

Lemma mkdir_chain_inv (chain : list string) (fs fs' : filesys) :
  mkdir_chain chain fs = (Ok tt, fs') ->
  forallb name_ok chain = true /\ existsb (is_file fs) chain = false.
Proof.
  revert fs. induction chain as [|d rest IH]; intros fs H; [auto|].
  cbn [mkdir_chain] in H. unfold name_ok. cbn [forallb existsb].
  destruct (has_nul d); [discriminate H|].
  destruct (path_too_long d); [discriminate H|].
  destruct (is_file fs d); [destruct rest; discriminate H|].
  destruct (name_too_long d); [discriminate H|].
  apply IH in H as [N F]. simpl. auto.
Qed.

Lemma config_directory_inv (self : MfccConfig) (fs fs' : filesys) (d : string) :
  config_directory self fs = (Ok d, fs') ->
  d = path_join (output_directory self) "config"
  /\ files fs' = files fs
  /\ dirs fs' = dirs fs ∪ list_to_set (ancestors d ++ [d])
  /\ existsb (is_file fs) (ancestors d) = false
  /\ is_file fs d = false
  /\ forallb name_ok (ancestors d ++ [d]) = true.
Proof.
  unfold config_directory, makedirs, mbind, io_bind, mret, io_ret.
  set (cfg := path_join (output_directory self) "config").
  destruct (mkdir_chain (ancestors cfg ++ [cfg]) fs) as [[[]|e] fs1] eqn:M; [|discriminate].
  intros H. injection H as <- <-.
  destruct (mkdir_chain_inv _ _ _ M) as [N F].
  rewrite (mkdir_chain_run _ _ N F) in M. injection M as <-.
  rewrite existsb_app in F. apply orb_false_iff in F as [F1 F2].
  simpl in F2. rewrite orb_false_r in F2. simpl. auto 10.
Qed.

(** [path] raises before anything else when the job does not convert. *)
Lemma path_run (self : MfccConfig) (fs : filesys) :
  path self fs
  = if repr_refuses (job self) then (Raise ValueError, fs)
    else match config_directory self fs with
         | (Ok d, fs') => (Ok (path_join d (file_name (job self))), fs')
         | (Raise e, fs') => (Raise e, fs')
         end.
Proof.
  unfold path, file_name, format_result, str_result, format, lift, mbind, io_bind,
    mret, io_ret.
  destruct (is_none (job self)) eqn:J.
  - destruct (job self); try discriminate J. reflexivity.
  - destruct (repr_refuses (job self)); reflexivity.
Qed.

Lemma path_inv (self : MfccConfig) (fs fs' : filesys) (p : string) :
  path self fs = (Ok p, fs') ->
  p = mfcc_path self
  /\ config_directory self fs = (Ok (path_join (output_directory self) "config"), fs').
Proof.
  rewrite path_run. destruct (repr_refuses (job self)); [discriminate|].
  destruct (config_directory self fs) as [[d|e] fs1] eqn:E; [|discriminate].
  intros H. injection H as <- <-.
  destruct (config_directory_inv _ _ _ _ E) as (-> & _).
  split; reflexivity.
Qed.

Lemma path_job (self : MfccConfig) (fs fs' : filesys) (p : string) :
  path self fs = (Ok p, fs') -> repr_refuses (job self) = false.
Proof.
  rewrite path_run. destruct (repr_refuses (job self)); [discriminate | reflexivity].
Qed.

(** Making the directories again changes nothing. *)
Lemma config_directory_again (self : MfccConfig) (fs fs' : filesys) (d : string) :
  config_directory self fs = (Ok d, fs') ->
  config_directory self fs' = (Ok d, fs').
Proof.
  intros H. destruct (config_directory_inv _ _ _ _ H) as (-> & Hf & Hd & E1 & E2 & N).
  unfold config_directory, makedirs, mbind, io_bind, mret, io_ret.
  set (cfg := path_join (output_directory self) "config") in *.
  rewrite (mkdir_chain_run _ _ N).
  - f_equal. destruct fs' as [ds fl]. simpl in *. f_equal.
    rewrite Hd, <- (assoc_L (∪)), (idemp_L (∪)). reflexivity.
  - rewrite existsb_app. unfold is_file in *. rewrite Hf, E1. simpl.
    rewrite E2. reflexivity.
Qed.

Lemma append_empty_r (a : string) : a +:+ EmptyString = a.
Proof.
  induction a as [|x a IH]; [reflexivity|].
  rewrite append_cons, IH. reflexivity.
Qed.

Lemma converted_all (kv : Dict.t pyval) : convertible kv = true -> converted kv = kv.
Proof.
  induction kv as [|x kv IH]; [reflexivity|].
  cbn [convertible forallb converted]. intros H. apply andb_true_iff in H as [Hx H].
  apply negb_true_iff in Hx. rewrite Hx. f_equal. apply IH, H.
Qed.

(** Writing the items one after the other appends their lines, up to
    the first value that [str] refuses. *)
Lemma write_items_run (p : string) (kv : list (string * pyval))
    (fs : filesys) (acc : string) :
  files fs !! p = Some acc ->
  write_items p kv fs
  = (if convertible kv then Ok tt else Raise ValueError,
     {| dirs := dirs fs; files := <[p := acc +:+ render (converted kv)]> (files fs) |}).
Proof.
  revert fs acc. induction kv as [|[k v] kv IH]; intros fs acc H.
  - simpl. rewrite append_empty_r, (insert_id _ _ _ H).
    destruct fs. reflexivity.
  - cbn [write_items convertible forallb converted snd].
    unfold mbind at 1. unfold io_bind, lift. rewrite make_safe_run.
    destruct (repr_refuses v); cbn [negb andb render].
    + rewrite append_empty_r, (insert_id _ _ _ H). destruct fs. reflexivity.
    + unfold mbind at 1. unfold io_bind, Os.write at 1. rewrite H.
      rewrite (IH _ (acc +:+ line (k, v))) by (simpl; apply lookup_insert_eq).
      simpl. rewrite insert_insert_eq, append_assoc. reflexivity.
Qed.

Lemma write_items_appends (p : string) (kv : list (string * pyval))
    (fs : filesys) (acc : string) :
  convertible kv = true ->
  files fs !! p = Some acc ->
  write_items p kv fs
  = (Ok tt, {| dirs := dirs fs; files := <[p := acc +:+ render kv]> (files fs) |}).
Proof.
  intros C H. rewrite (write_items_run _ _ _ _ H), (converted_all _ C), C. reflexivity.
Qed.

(** When [open_w] returns, the file is there and empty. *)
Lemma open_w_ok (p : string) (fs fs' : filesys) :
  open_w p fs = (Ok tt, fs') ->
  fs' = {| dirs := dirs fs; files := <[p := EmptyString]> (files fs) |}.
Proof.
  unfold open_w. intros O.
  destruct (has_nul p); [discriminate O|].
  destruct (path_too_long p); [discriminate O|].
  destruct (is_dir fs p); [discriminate O|].
  destruct (parent p) as [d|].
  - destruct (is_dir fs d); [|destruct (is_file fs d); discriminate O].
    destruct (name_too_long p); [discriminate O|]. injection O as <-. reflexivity.
  - destruct (name_too_long p); [discriminate O|]. injection O as <-. reflexivity.
Qed.

(** When [open_w] raises, nothing has changed. *)
Lemma open_w_raise (p : string) (fs fs' : filesys) (e : exn) :
  open_w p fs = (Raise e, fs') -> fs' = fs.
Proof.
  unfold open_w. intros O.
  destruct (has_nul p); [congruence|].
  destruct (path_too_long p); [congruence|].
  destruct (is_dir fs p); [congruence|].
  destruct (parent p) as [d|].
  - destruct (is_dir fs d); [|destruct (is_file fs d); congruence].
    destruct (name_too_long p); [congruence | discriminate O].
  - destruct (name_too_long p); [congruence | discriminate O].
Qed.

(** The steps of [write], once [path] and [open_w] have returned. *)
Lemma write_run (self : MfccConfig) (fs fs1 fs2 : filesys) :
  path self fs = (Ok (mfcc_path self), fs1) ->
  open_w (mfcc_path self) fs1 = (Ok tt, fs2) ->
  Config.write self fs
  = (if convertible (config_dict self) then Ok tt else Raise ValueError,
     {| dirs := dirs fs1;
        files := <[mfcc_path self := render (converted (config_dict self))]> (files fs) |}).
Proof.
  intros P O. unfold Config.write. unfold mbind at 1. unfold io_bind. rewrite P.
  unfold mbind at 1. unfold io_bind. rewrite O.
  apply open_w_ok in O as ->.
  destruct (path_inv _ _ _ _ P) as (_ & C).
  destruct (config_directory_inv _ _ _ _ C) as (_ & Hf & _).
  rewrite (write_items_run _ _ _ EmptyString) by (simpl; apply lookup_insert_eq).
  simpl. rewrite insert_insert_eq, Hf. reflexivity.
Qed.

(** When [write] returns, [path] and [open_w] have, and every value has
    been converted. *)
Lemma write_ok_steps (self : MfccConfig) (fs fs' : filesys) :
  Config.write self fs = (Ok tt, fs') ->
  exists fs1 fs2,
    path self fs = (Ok (mfcc_path self), fs1)
    /\ open_w (mfcc_path self) fs1 = (Ok tt, fs2)
    /\ convertible (config_dict self) = true.
Proof.
  intros W. pose proof W as W0.
  unfold Config.write in W. unfold mbind at 1 in W. unfold io_bind in W.
  destruct (path self fs) as [[p|e] fs1] eqn:P; [|discriminate W].
  destruct (path_inv _ _ _ _ P) as (-> & _).
  unfold mbind at 1 in W. unfold io_bind in W.
  destruct (open_w (mfcc_path self) fs1) as [[[]|e] fs2] eqn:O; [|discriminate W].
  exists fs1, fs2. split; [reflexivity|]. split; [exact O|].
  rewrite (write_run _ _ _ _ P O) in W0.
  destruct (convertible (config_dict self)); [reflexivity | discriminate W0].
Qed.

(** When [write] returns, the file at [path] holds the lines of the
    dictionary and nothing else; no other file has changed. *)
Lemma write_inv (self : MfccConfig) (fs fs' : filesys) :
  Config.write self fs = (Ok tt, fs') ->
  files fs' = <[mfcc_path self := render (config_dict self)]> (files fs)
  /\ (exists fs1, path self fs = (Ok (mfcc_path self), fs1) /\ dirs fs' = dirs fs1).
Proof.
  intros W. destruct (write_ok_steps _ _ _ W) as (fs1 & fs2 & P & O & C).
  rewrite (write_run _ _ _ _ P O), C, (converted_all _ C) in W.
  injection W as <-. split; [reflexivity|]. exists fs1. split; [exact P | reflexivity].
Qed.

Lemma ancestors_from_append (pre s1 s2 : string) :
  ancestors_from pre (s1 +:+ s2)
  = ancestors_from pre s1 ++ ancestors_from (pre +:+ s1) s2.
Proof.
  revert pre. induction s1 as [|c s1 IH]; intros pre.
  - rewrite append_empty_l, append_empty_r. reflexivity.
  - rewrite append_cons. cbn [ancestors_from]. rewrite IH.
    rewrite append_assoc, append_cons, append_empty_l.
    rewrite <- !(assoc_L (++)). reflexivity.
Qed.

Lemma ancestors_from_no_sep (pre f : string) :
  contains "/" f = false -> ancestors_from pre f = [].
Proof.
  revert pre. induction f as [|c f IH]; intros pre H; [reflexivity|].
  cbn [contains] in H. apply orb_false_iff in H as [Hc Hf].
  cbn [ancestors_from]. unfold is_sep. rewrite Ascii.eqb_sym, Hc.
  cbn [andb app]. apply IH, Hf.
Qed.

(** A file placed in a directory has that directory as parent. *)
Lemma parent_of_file (d f : string) :
  String.eqb d EmptyString = false -> ends_with_sep d = false ->
  contains "/" f = false ->
  parent (d +:+ "/" +:+ f) = Some d.
Proof.
  intros Hd He Hf. unfold parent, ancestors.
  rewrite ancestors_from_append, append_empty_l.
  change ("/" +:+ f) with (String "/" f). cbn [ancestors_from].
  rewrite Hd, He. simpl.
  rewrite (ancestors_from_no_sep _ _ Hf).
  apply last_snoc.
Qed.

Lemma ancestors_from_shorter (pre rest a : string) :
  a ∈ ancestors_from pre rest ->
  (String.length a < String.length pre + String.length rest)%nat.
Proof.
  revert pre. induction rest as [|c rest IH]; intros pre H; cbn [ancestors_from] in H.
  - inversion H.
  - apply elem_of_app in H as [H | H].
    + destruct (is_sep c && negb (String.eqb pre EmptyString) && negb (ends_with_sep pre)).
      * apply list_elem_of_singleton in H as ->. simpl. lia.
      * inversion H.
    + apply IH in H. rewrite length_append in H. simpl in *. lia.
Qed.

Lemma config_dir_shape (d : string) :
  String.eqb (path_join d "config") EmptyString = false
  /\ ends_with_sep (path_join d "config") = false.
Proof.
  rewrite path_join_config. split.
  - apply append_nonempty. discriminate.
  - rewrite ends_with_sep_append by discriminate. reflexivity.
Qed.

(** The file lies in the configuration directory. *)
Lemma mfcc_path_in_config_dir (self : MfccConfig) :
  mfcc_path self
  = path_join (output_directory self) "config" +:+ "/" +:+ file_name (job self).
Proof.
  unfold mfcc_path.
  destruct (config_dir_shape (output_directory self)) as [H1 H2].
  unfold path_join at 1. rewrite file_name_no_sep, H1, H2. reflexivity.
Qed.

Lemma existsb_is_file_empty (dirs0 : gset string) (l : list string) :
  existsb (is_file {| dirs := dirs0; files := ∅ |}) l = false.
Proof. induction l as [|x l IH]; [reflexivity | exact IH]. Qed.

(** [path] returns when the job converts, the names of the directories
    are accepted and no file is in the way of a directory. *)
Lemma path_succeeds (self : MfccConfig) (fs : filesys) :
  let cfg := path_join (output_directory self) "config" in
  existsb (is_file fs) (ancestors cfg) = false ->
  is_file fs cfg = false ->
  repr_refuses (job self) = false ->
  forallb name_ok (ancestors cfg ++ [cfg]) = true ->
  path self fs
  = (Ok (mfcc_path self),
     {| dirs := dirs fs ∪ list_to_set (ancestors cfg ++ [cfg]); files := files fs |}).
Proof.
  intros cfg E1 E2 J N.
  rewrite path_run, J. unfold config_directory, makedirs, mbind, io_bind, mret, io_ret.
  fold cfg. rewrite (mkdir_chain_run _ _ N); [reflexivity|].
  rewrite existsb_app, E1. simpl. rewrite E2. reflexivity.
Qed.

Lemma plain_items_convertible (d : Dict.t pyval) :
  plain_items d = true -> convertible d = true.
Proof.
  unfold plain_items, convertible. induction d as [|x d IH]; [reflexivity|].
  cbn [forallb]. intros H. apply andb_true_iff in H as [Hx H].
  rewrite (PyFacts.plain_not_refused _ Hx), (IH H). reflexivity.
Qed.

Lemma convertible_set (d : Dict.t pyval) (k : string) (v : pyval) :
  convertible d = true -> repr_refuses v = false ->
  convertible (Dict.set d k v) = true.
Proof.
  unfold convertible. intros H R. induction d as [|[k' v'] d IH]; simpl.
  - rewrite R. reflexivity.
  - simpl in H. apply andb_true_iff in H as [Hx H].
    destruct (String.eqb k k'); simpl.
    + rewrite R, H. reflexivity.
    + rewrite Hx, (IH H). reflexivity.
Qed.

Lemma convertible_update (d kw : Dict.t pyval) :
  convertible d = true -> convertible kw = true ->
  convertible (Dict.update d kw) = true.
Proof.
  revert d. induction kw as [|[k v] kw IH]; intros d H K; simpl; [exact H|].
  unfold convertible in K. simpl in K. apply andb_true_iff in K as [Kv K].
  apply negb_true_iff in Kv. apply IH; [|exact K].
  apply convertible_set; assumption.
Qed.

Lemma writable_parts (self : MfccConfig) :
  writable self = true ->
  let cfg := path_join (output_directory self) "config" in
  repr_refuses (job self) = false
  /\ contains "/" (file_name (job self)) = false
  /\ forallb name_ok (ancestors cfg ++ [cfg]) = true
  /\ name_ok (mfcc_path self) = true
  /\ convertible (config_dict self) = true.
Proof.
  unfold writable. cbv zeta. intros H.
  apply andb_true_iff in H as [H H5]. apply andb_true_iff in H as [H H4].
  apply andb_true_iff in H as [H H3]. apply andb_true_iff in H as [H1 H2].
  apply negb_true_iff in H2. apply PyFacts.plain_not_refused in H1.
  apply plain_items_convertible in H5. auto.
Qed.

(** [open_w] returns for an accepted name that is no directory, in a
    directory that exists. *)
Lemma open_w_run (p d : string) (fs : filesys) :
  name_ok p = true -> is_dir fs p = false ->
  parent p = Some d -> is_dir fs d = true ->
  open_w p fs
  = (Ok tt, {| dirs := dirs fs; files := <[p := EmptyString]> (files fs) |}).
Proof.
  unfold name_ok. intros N D Par Dd.
  apply andb_true_iff in N as [N N3]. apply andb_true_iff in N as [N1 N2].
  apply negb_true_iff in N1, N2, N3.
  unfold open_w. rewrite N1, N2, D, Par, Dd, N3. reflexivity.
Qed.

(** [write] returns when, besides, no directory has the name of the
    file. *)
Lemma write_succeeds (self : MfccConfig) (fs : filesys) :
  let cfg := path_join (output_directory self) "config" in
  existsb (is_file fs) (ancestors cfg) = false ->
  is_file fs cfg = false ->
  is_dir fs (mfcc_path self) = false ->
  writable self = true ->
  exists fs', Config.write self fs = (Ok tt, fs').
Proof.
  intros cfg E1 E2 E3 Wr.
  destruct (writable_parts _ Wr) as (J & E4 & N & Np & C). fold cfg in N.
  pose proof (path_succeeds self fs E1 E2 J N) as P. fold cfg in P.
  set (fs1 := {| dirs := dirs fs ∪ list_to_set (ancestors cfg ++ [cfg]);
                 files := files fs |}) in *.
  destruct (config_dir_shape (output_directory self)) as [S1 S2]. fold cfg in S1, S2.
  pose proof (mfcc_path_in_config_dir self) as Q. fold cfg in Q.
  assert (D1 : is_dir fs1 (mfcc_path self) = false).
  { unfold is_dir in *. apply bool_decide_eq_false. apply bool_decide_eq_false in E3.
    simpl. rewrite elem_of_union, elem_of_list_to_set, elem_of_app, list_elem_of_singleton.
    intros [H | [H | H]]; [contradiction | |].
    - apply ancestors_from_shorter in H. rewrite Q, !length_append in H.
      simpl in H. lia.
    - apply (f_equal String.length) in H. rewrite Q, !length_append in H.
      simpl in H. lia. }
  assert (D2 : is_dir fs1 cfg = true).
  { unfold is_dir. apply bool_decide_eq_true. simpl.
    rewrite elem_of_union, elem_of_list_to_set, elem_of_app, list_elem_of_singleton.
    auto. }
  assert (Par : parent (mfcc_path self) = Some cfg).
  { rewrite Q. apply (parent_of_file _ _ S1 S2 E4). }
  pose proof (open_w_run _ _ _ Np D1 Par D2) as O.
  rewrite (write_run _ _ _ _ P O), C. eexists. reflexivity.
Qed.

(** On the empty file system [write] returns for every writable
    object. *)
Lemma write_on_empty (self : MfccConfig) :
  writable self = true ->
  exists fs', Config.write self empty_fs = (Ok tt, fs').
Proof.
  intros H. apply write_succeeds; [apply existsb_is_file_empty | reflexivity | | exact H].
  unfold is_dir, empty_fs. simpl. apply bool_decide_eq_false. apply not_elem_of_empty.
Qed.

Lemma path_same (self self' : MfccConfig) (fs : filesys) :
  job self' = job self -> output_directory self' = output_directory self ->
  path self' fs = path self fs.
Proof.
  intros J D. rewrite !path_run. unfold config_directory. rewrite J, D. reflexivity.
Qed.

Lemma mfcc_path_same (self self' : MfccConfig) :
  job self' = job self -> output_directory self' = output_directory self ->
  mfcc_path self' = mfcc_path self.
Proof. intros J D. unfold mfcc_path. rewrite J, D. reflexivity. Qed.

(** Deriving the path again returns the same path and changes nothing. *)
Lemma path_again (self : MfccConfig) (fs fs' : filesys) (p : string) :
  path self fs = (Ok p, fs') -> path self fs' = (Ok p, fs').
Proof.
  intros P. destruct (path_inv _ _ _ _ P) as (-> & C).
  rewrite path_run, (path_job _ _ _ _ P), (config_directory_again _ _ _ _ C).
  reflexivity.
Qed.

(** Whether [open_w] returns depends on the directories alone. *)
Lemma open_w_same_dirs (p : string) (fsA fsA' fsB : filesys) :
  open_w p fsA = (Ok tt, fsA') -> dirs fsB = dirs fsA ->
  open_w p fsB
  = (Ok tt, {| dirs := dirs fsB; files := <[p := EmptyString]> (files fsB) |}).
Proof.
  unfold open_w, is_dir. intros O E. rewrite E.
  destruct (has_nul p); [discriminate O|].
  destruct (path_too_long p); [discriminate O|].
  destruct (bool_decide (p ∈ dirs fsA)); [discriminate O|].
  destruct (parent p) as [d|].
  - destruct (bool_decide (d ∈ dirs fsA)); [|destruct (is_file fsA d); discriminate O].
    destruct (name_too_long p); [discriminate O | reflexivity].
  - destruct (name_too_long p); [discriminate O | reflexivity].
Qed.

(** The file is none of the directories [makedirs] makes. *)
Lemma mfcc_path_not_made (self : MfccConfig) :
  let cfg := path_join (output_directory self) "config" in
  ~ In (mfcc_path self) (ancestors cfg ++ [cfg]).
Proof.
  intros cfg Hin. pose proof (mfcc_path_in_config_dir self) as P. fold cfg in P.
  apply in_app_or in Hin as [H | [H | []]].
  - apply list_elem_of_In, ancestors_from_shorter in H.
    rewrite P, !length_append in H. simpl in H. lia.
  - apply (f_equal String.length) in H. rewrite P, !length_append in H.
    simpl in H. lia.
Qed.

Lemma existsb_is_file_insert (fs : filesys) (dirs' : gset string) (p text : string)
    (l : list string) :
  ~ In p l ->
  existsb (is_file {| dirs := dirs'; files := <[p := text]> (files fs) |}) l
  = existsb (is_file fs) l.
Proof.
  induction l as [|x l IH]; intros H; simpl; [reflexivity|].
  rewrite IH by (intros Hin; apply H; right; exact Hin).
  f_equal. unfold is_file. simpl.
  rewrite lookup_insert_ne by (intros ->; apply H; left; reflexivity).
  reflexivity.
Qed.

(** After a [write] that returned, and with nothing changed in between, a
    [write] of an object with the same job and output directory gets as far
    as the lines: it replaces the file by the lines of the values that
    convert, up to the first that does not. *)
Lemma write_after (self self' : MfccConfig) (fs fs' : filesys) :
  Config.write self fs = (Ok tt, fs') ->
  job self' = job self -> output_directory self' = output_directory self ->
  Config.write self' fs'
  = (if convertible (config_dict self') then Ok tt else Raise ValueError,
     {| dirs := dirs fs';
        files := <[mfcc_path self := render (converted (config_dict self'))]>
                   (files fs') |}).
Proof.
  intros W J D. destruct (write_ok_steps _ _ _ W) as (fs1 & fs2 & P & O & C).
  rewrite (write_run _ _ _ _ P O), C, (converted_all _ C) in W. injection W as <-.
  destruct (path_inv _ _ _ _ P) as (_ & Cd).
  destruct (config_directory_inv _ _ _ _ Cd) as (_ & Hf & Hd & E1 & E2 & N).
  pose proof (mfcc_path_not_made self) as NM. cbv zeta in NM.
  pose proof (mfcc_path_same self self' J D) as M.
  set (cfg := path_join (output_directory self) "config") in *.
  set (p := mfcc_path self) in *.
  set (r := render (config_dict self)) in *.
  set (fs' := {| dirs := dirs fs1; files := <[p := r]> (files fs) |}).
  assert (F1 : existsb (is_file fs') (ancestors cfg) = false).
  { unfold fs'. rewrite existsb_is_file_insert; [exact E1|].
    intros Hin. apply NM, in_or_app. left. exact Hin. }
  assert (F2 : is_file fs' cfg = false).
  { pose proof (existsb_is_file_insert fs (dirs fs1) p r [cfg]) as X.
    simpl in X. rewrite !orb_false_r in X. unfold fs'. rewrite X; [exact E2|].
    intros [Hin | []]. apply NM, in_or_app. right. left. exact Hin. }
  assert (P' : path self' fs' = (Ok (mfcc_path self'), fs')).
  { rewrite (path_same _ _ _ J D), M.
    rewrite (path_succeeds self fs' F1 F2 (path_job _ _ _ _ P) N). fold cfg p.
    assert (Dd : dirs fs' ∪ list_to_set (ancestors cfg ++ [cfg]) = dirs fs1).
    { unfold fs'. simpl. rewrite Hd, <- (assoc_L (∪)), (idemp_L (∪)). reflexivity. }
    rewrite Dd. reflexivity. }
  assert (O' : open_w (mfcc_path self') fs'
               = (Ok tt, {| dirs := dirs fs';
                            files := <[mfcc_path self' := EmptyString]> (files fs') |})).
  { rewrite M. exact (open_w_same_dirs p fs1 fs2 fs' O eq_refl). }
  rewrite (write_run _ _ _ _ P' O'), M. reflexivity.
Qed.

(** Writing again, with nothing changed in between, leaves the file system
    as the first [write] left it. *)
Lemma write_again (self : MfccConfig) (fs fs' : filesys) :
  Config.write self fs = (Ok tt, fs') -> Config.write self fs' = (Ok tt, fs').
Proof.
  intros W. rewrite (write_after self self _ _ W eq_refl eq_refl).
  destruct (write_ok_steps _ _ _ W) as (_ & _ & _ & _ & C).
  destruct (write_inv _ _ _ W) as (Hf & _).
  rewrite C, (converted_all _ C). f_equal.
  destruct fs' as [ds fl]. simpl in *. rewrite Hf, insert_insert_eq. reflexivity.
Qed.

End OsFacts.

(** * The claims *)

Module Claims.

Import Py Config Os ConfigFacts OsFacts.

(** ** Derived properties of the training-stage configurations *)

(** C6: whatever [num_iters] holds, [max_iter_inc] of a [MonophoneConfig]
    (and of the classes that inherit from it) is [num_iters - 10], which
    for an integer [n] is the integer [n - 10]; [max_iter_inc] of an
    [LdaMlltConfig] is [num_iters] itself. *)
Theorem max_iter_inc_of_num_iters (self : object) (v : pyval) :
  ob_dict self !! "num_iters" = Some v ->
  (monophone_family (ob_class self) = true ->
     getattr self "max_iter_inc" = Py.sub v (VInt 10)
     /\ forall n, v = VInt n -> getattr self "max_iter_inc" = Ok (VInt (n - 10)))
  /\ (ob_class self = LdaMlltConfig_t -> getattr self "max_iter_inc" = Ok v).
Proof.
  intros Hn. split.
  - intros Hc. rewrite (getattr_max_iter_inc _ Hc).
    unfold MonophoneConfig_max_iter_inc. rewrite (field_lookup _ _ _ Hn).
    split; [reflexivity|]. intros n ->. reflexivity.
  - intros Hc. rewrite (getattr_lda_max_iter_inc _ Hc).
    apply field_lookup, Hn.
Qed.

Lemma max_iter_inc_of_num_iters_witness :
  let self := assign (new TriphoneConfig_t) "num_iters" (VInt 35) in
  ob_dict self !! "num_iters" = Some (VInt 35)
  /\ getattr self "max_iter_inc" = Ok (VInt 25).
Proof.
  intros self.
  assert (H : ob_dict self !! "num_iters" = Some (VInt 35)) by (vm_compute; reflexivity).
  split; [exact H|].
  exact (proj2 (proj1 (max_iter_inc_of_num_iters self _ H) eq_refl) 35 eq_refl).
Defined.

(** C4, within the range of exact floats: when [max_gauss_count], [initial_gauss_count] and
    [num_iters] are integers, the difference of the two counts is below
    [2^53] in absolute value and [max_iter_inc] is not zero,
    [inc_gauss_count] is the quotient of the difference by [max_iter_inc]
    truncated toward zero, which is the floor quotient when the difference
    is non-negative and [max_iter_inc] positive; so for [MonophoneConfig]
    as for [LdaMlltConfig]. *)
Theorem inc_gauss_count_quotient (self : object) (M I n : Z) :
  ob_dict self !! "max_gauss_count" = Some (VInt M) ->
  ob_dict self !! "initial_gauss_count" = Some (VInt I) ->
  ob_dict self !! "num_iters" = Some (VInt n) ->
  Z.abs (M - I) < 2 ^ 53 ->
  (monophone_family (ob_class self) = true -> n - 10 <> 0 ->
     getattr self "inc_gauss_count" = Ok (VInt ((M - I) ÷ (n - 10)))
     /\ (0 <= M - I -> 0 < n - 10 ->
         getattr self "inc_gauss_count" = Ok (VInt ((M - I) / (n - 10)))))
  /\ (ob_class self = LdaMlltConfig_t -> n <> 0 ->
     getattr self "inc_gauss_count" = Ok (VInt ((M - I) ÷ n))
     /\ (0 <= M - I -> 0 < n ->
         getattr self "inc_gauss_count" = Ok (VInt ((M - I) / n)))).
Proof.
  intros HM HI Hn Hb. split.
  - intros Hc Hz. rewrite (getattr_inc_gauss_count _ Hc).
    rewrite (mono_inc_gauss_count_ints _ _ _ _ HM HI Hn).
    rewrite (PyFacts.int_truediv_quot _ _ Hb Hz).
    split; [reflexivity|]. intros H0 Hp.
    rewrite Z.quot_div_nonneg by lia. reflexivity.
  - intros Hc Hz. rewrite (getattr_lda_inc_gauss_count _ Hc).
    rewrite (lda_inc_gauss_count_ints _ _ _ _ HM HI Hn).
    rewrite (PyFacts.int_truediv_quot _ _ Hb Hz).
    split; [reflexivity|]. intros H0 Hp.
    rewrite Z.quot_div_nonneg by lia. reflexivity.
Qed.

(** The counts of a [TriphoneConfig]: [(50000 - 3100) / 25] gives [1876]. *)
Lemma inc_gauss_count_quotient_witness :
  let self :=
    assign (assign (assign (new TriphoneConfig_t)
      "max_gauss_count" (VInt 50000))
      "initial_gauss_count" (VInt 3100))
      "num_iters" (VInt 35) in
  ob_dict self !! "max_gauss_count" = Some (VInt 50000)
  /\ ob_dict self !! "initial_gauss_count" = Some (VInt 3100)
  /\ ob_dict self !! "num_iters" = Some (VInt 35)
  /\ Z.abs (50000 - 3100) < 2 ^ 53
  /\ getattr self "inc_gauss_count" = Ok (VInt 1876).
Proof.
  intros self.
  assert (H1 : ob_dict self !! "max_gauss_count" = Some (VInt 50000))
    by (vm_compute; reflexivity).
  assert (H2 : ob_dict self !! "initial_gauss_count" = Some (VInt 3100))
    by (vm_compute; reflexivity).
  assert (H3 : ob_dict self !! "num_iters" = Some (VInt 35))
    by (vm_compute; reflexivity).
  assert (H4 : Z.abs (50000 - 3100) < 2 ^ 53) by reflexivity.
  repeat (split; [assumption|]).
  exact (proj2 (proj1 (inc_gauss_count_quotient self _ _ _ H1 H2 H3 H4)
                  eq_refl ltac:(discriminate))
           ltac:(discriminate) eq_refl).
Defined.

(** C4 does not hold without a bound on the counts: with a difference of [2^53 + 1] and
    [max_iter_inc = 1] the float between the division and [int] rounds,
    and [inc_gauss_count] is [2^53], not the floor quotient [2^53 + 1]. *)
Lemma inc_gauss_count_floor_counterexample :
  ~ (forall (self : object) (M I n : Z),
       ob_dict self !! "max_gauss_count" = Some (VInt M) ->
       ob_dict self !! "initial_gauss_count" = Some (VInt I) ->
       ob_dict self !! "num_iters" = Some (VInt n) ->
       monophone_family (ob_class self) = true ->
       0 <= M - I -> 0 < n - 10 ->
       getattr self "inc_gauss_count" = Ok (VInt ((M - I) / (n - 10)))).
Proof.
  intros H.
  pose (self :=
    assign (assign (assign (new MonophoneConfig_t)
      "max_gauss_count" (VInt (2 ^ 53 + 1)))
      "initial_gauss_count" (VInt 0))
      "num_iters" (VInt 11)).
  specialize (H self (2 ^ 53 + 1) 0 11).
  assert (E : getattr self "inc_gauss_count" = Ok (VInt (2 ^ 53)))
    by (vm_compute; reflexivity).
  rewrite E in H.
  assert (C : Ok (VInt (2 ^ 53)) = Ok (VInt ((2 ^ 53 + 1 - 0) / (11 - 10)))).
  { apply H; vm_compute; first [reflexivity | discriminate]. }
  vm_compute in C. discriminate C.
Qed.

(** The base constructor stores [realign_iters] from its test of
    [align_often] and no [initial_gauss_count]; a keyword of either name
    overrides that. *)
Lemma MonophoneConfig_init_stored (c : class) (kwargs : Dict.t pyval) (o : object) :
  MonophoneConfig_init c kwargs = Ok o ->
  ob_class o = c
  /\ (Dict.get kwargs "initial_gauss_count" = None ->
      ob_dict o !! "initial_gauss_count" = None)
  /\ (Dict.get kwargs "realign_iters" = None ->
      ob_dict o !! "realign_iters"
      = Some (if truthy (Dict.get_default kwargs "align_often" (VBool false))
              then ints often_iters else ints seldom_iters)).
Proof.
  unfold MonophoneConfig_init, bind_keywords.
  destruct (Dict.get kwargs "self"); [discriminate|].
  intros H. split; [|split].
  - apply setattr_items_class in H. destruct (truthy _); exact H.
  - intros G. rewrite (setattr_items_other _ _ _ _ H G).
    destruct (truthy _); vm_compute; reflexivity.
  - intros G. rewrite (setattr_items_other _ _ _ _ H G).
    destruct (truthy _); vm_compute; reflexivity.
Qed.

(** C5 as stated fails: [MonophoneConfig(num_iters=10)] has [max_iter_inc]
    zero, and reading its [inc_gauss_count] raises [AttributeError], not
    [ZeroDivisionError]: [initial_gauss_count] is read before the
    division. *)
Lemma inc_gauss_count_zero_counterexample :
  ~ (forall (kwargs : Dict.t pyval) (self : object),
       MonophoneConfig kwargs = Ok self ->
       getattr self "max_iter_inc" = Ok (VInt 0) ->
       getattr self "inc_gauss_count" = Raise ZeroDivisionError).
Proof.
  intros H.
  assert (A : MonophoneConfig [("num_iters", VInt 10)]
                ≫= (fun o => getattr o "max_iter_inc") = Ok (VInt 0))
    by (vm_compute; reflexivity).
  assert (B : MonophoneConfig [("num_iters", VInt 10)]
                ≫= (fun o => getattr o "inc_gauss_count") = Raise AttributeError)
    by (vm_compute; reflexivity).
  destruct (MonophoneConfig [("num_iters", VInt 10)]) as [self|e] eqn:E;
    [|discriminate A].
  change (getattr self "max_iter_inc" = Ok (VInt 0)) in A.
  change (getattr self "inc_gauss_count" = Raise AttributeError) in B.
  rewrite (H _ self E A) in B. discriminate B.
Qed.

(** C5, with the condition the division needs: reading [inc_gauss_count]
    raises [ZeroDivisionError] when the two counts are set to integers and
    [max_iter_inc] is zero, that is when [num_iters] is 10 on a
    [MonophoneConfig] (0 on an [LdaMlltConfig]); it raises [AttributeError]
    on an object without [initial_gauss_count], whatever [num_iters], and
    the base constructor stores none unless a keyword supplies it, so that
    a bare [MonophoneConfig()] raises [AttributeError], and so does
    [MonophoneConfig(num_iters=10)].  The property returns the exception
    to its caller. *)
Theorem inc_gauss_count_faults :
  (forall (self : object) (M I : Z),
     monophone_family (ob_class self) = true ->
     ob_dict self !! "max_gauss_count" = Some (VInt M) ->
     ob_dict self !! "initial_gauss_count" = Some (VInt I) ->
     ob_dict self !! "num_iters" = Some (VInt 10) ->
     getattr self "max_iter_inc" = Ok (VInt 0)
     /\ getattr self "inc_gauss_count" = Raise ZeroDivisionError)
  /\ (forall (self : object) (M I : Z),
     ob_class self = LdaMlltConfig_t ->
     ob_dict self !! "max_gauss_count" = Some (VInt M) ->
     ob_dict self !! "initial_gauss_count" = Some (VInt I) ->
     ob_dict self !! "num_iters" = Some (VInt 0) ->
     getattr self "inc_gauss_count" = Raise ZeroDivisionError)
  /\ (forall (self : object),
     monophone_family (ob_class self) = true \/ ob_class self = LdaMlltConfig_t ->
     ob_dict self !! "initial_gauss_count" = None ->
     getattr self "inc_gauss_count" = Raise AttributeError)
  /\ (forall (kwargs : Dict.t pyval) (self : object),
     MonophoneConfig kwargs = Ok self ->
     Dict.get kwargs "initial_gauss_count" = None ->
     getattr self "inc_gauss_count" = Raise AttributeError)
  /\ (MonophoneConfig [] ≫= (fun self => getattr self "inc_gauss_count")
      = Raise AttributeError)
  /\ (MonophoneConfig [("num_iters", VInt 10)]
        ≫= (fun self => getattr self "inc_gauss_count")
      = Raise AttributeError)
  /\ (MonophoneConfig [("num_iters", VInt 10); ("initial_gauss_count", VInt 100)]
        ≫= (fun self => getattr self "inc_gauss_count")
      = Raise ZeroDivisionError).
Proof.
  assert (Missing : forall self : object,
    monophone_family (ob_class self) = true \/ ob_class self = LdaMlltConfig_t ->
    ob_dict self !! "initial_gauss_count" = None ->
    getattr self "inc_gauss_count" = Raise AttributeError).
  { intros self Hc HI.
    destruct Hc as [Hc | Hc].
    - rewrite (getattr_inc_gauss_count _ Hc). unfold MonophoneConfig_inc_gauss_count.
      rewrite (field_missing _ _ HI). unfold field.
      destruct (ob_dict self !! "max_gauss_count"); reflexivity.
    - rewrite (getattr_lda_inc_gauss_count _ Hc). unfold LdaMlltConfig_inc_gauss_count.
      rewrite (field_missing _ _ HI). unfold field.
      destruct (ob_dict self !! "max_gauss_count"); reflexivity. }
  split; [|split; [|split; [|split; [|split; [|split]]]]].
  - intros self M I Hc HM HI Hn. split.
    + rewrite (getattr_max_iter_inc _ Hc). unfold MonophoneConfig_max_iter_inc.
      rewrite (field_lookup _ _ _ Hn). reflexivity.
    + rewrite (getattr_inc_gauss_count _ Hc).
      rewrite (mono_inc_gauss_count_ints _ _ _ _ HM HI Hn). reflexivity.
  - intros self M I Hc HM HI Hn.
    rewrite (getattr_lda_inc_gauss_count _ Hc).
    rewrite (lda_inc_gauss_count_ints _ _ _ _ HM HI Hn). reflexivity.
  - exact Missing.
  - intros kwargs self H G.
    destruct (MonophoneConfig_init_stored _ _ _ H) as (Hc & HI & _).
    apply Missing; [left; rewrite Hc; reflexivity | exact (HI G)].
  - vm_compute. reflexivity.
  - vm_compute. reflexivity.
  - vm_compute. reflexivity.
Qed.

(** The object [MonophoneConfig(num_iters=10, initial_gauss_count=100)]
    builds: the division by zero. *)
Lemma inc_gauss_count_faults_witness :
  let self :=
    assign (assign (assign (new MonophoneConfig_t)
      "max_gauss_count" (VInt 1000))
      "initial_gauss_count" (VInt 100))
      "num_iters" (VInt 10) in
  monophone_family (ob_class self) = true
  /\ ob_dict self !! "max_gauss_count" = Some (VInt 1000)
  /\ ob_dict self !! "initial_gauss_count" = Some (VInt 100)
  /\ ob_dict self !! "num_iters" = Some (VInt 10)
  /\ getattr self "inc_gauss_count" = Raise ZeroDivisionError.
Proof.
  intros self.
  assert (H1 : ob_dict self !! "max_gauss_count" = Some (VInt 1000))
    by (vm_compute; reflexivity).
  assert (H2 : ob_dict self !! "initial_gauss_count" = Some (VInt 100))
    by (vm_compute; reflexivity).
  assert (H3 : ob_dict self !! "num_iters" = Some (VInt 10))
    by (vm_compute; reflexivity).
  split; [reflexivity|]. repeat (split; [assumption|]).
  exact (proj2 (proj1 inc_gauss_count_faults self _ _ eq_refl H1 H2 H3)).
Defined.

(** ** Realignment schedules *)

(** C1: what the base constructor does at the inputs of the claim.  With
    [align_often=True] it stores the 21-element schedule, with
    [align_often=False] or no [align_often] the 9-element one: the two
    branches are the other way round from the class docstring. *)
Theorem MonophoneConfig_align_often_schedule :
  MonophoneConfig [("align_often", VBool true)]
    ≫= (fun self => getattr self "realign_iters")
  = Ok (ints [1; 2; 3; 4; 5; 6; 7; 8; 9; 10; 12; 14; 16; 18; 20; 23; 26; 29; 32; 35; 38])
  /\ MonophoneConfig [("align_often", VBool false)]
       ≫= (fun self => getattr self "realign_iters")
     = Ok (ints [1; 5; 10; 15; 20; 25; 30; 35; 38])
  /\ MonophoneConfig [] ≫= (fun self => getattr self "realign_iters")
     = Ok (ints [1; 5; 10; 15; 20; 25; 30; 35; 38]).
Proof. repeat split; vm_compute; reflexivity. Qed.

Lemma without_set (k : string) (kw : Dict.t pyval) (v : pyval) :
  without k (Dict.set kw k v) = without k kw.
Proof.
  unfold without. induction kw as [|[k' v'] kw IH]; simpl.
  - rewrite String.eqb_refl. reflexivity.
  - destruct (String.eqb_spec k k') as [->|Hne]; simpl.
    + rewrite String.eqb_refl. reflexivity.
    + destruct (String.eqb_spec k' k); [congruence|]. simpl. f_equal. exact IH.
Qed.

(** C2: what [TriphoneFmllrConfig] does with [align_often].  The parameter
    is bound and never read nor passed on, so two calls that differ in it
    alone build the same object, and [realign_iters] is the 9-element
    schedule for [align_often=False] as for [align_often=True]. *)
Theorem TriphoneFmllrConfig_align_often_unused :
  (forall (c : class) (a1 a2 : pyval) (kwargs : Dict.t pyval),
     TriphoneFmllrConfig_init c a1 kwargs = TriphoneFmllrConfig_init c a2 kwargs)
  /\ (forall (kw : Dict.t pyval) (a1 a2 : pyval),
     TriphoneFmllrConfig (Dict.set kw "align_often" a1)
     = TriphoneFmllrConfig (Dict.set kw "align_often" a2))
  /\ TriphoneFmllrConfig [("align_often", VBool false)]
       ≫= (fun self => getattr self "realign_iters")
     = Ok (ints [1; 5; 10; 15; 20; 25; 30; 35; 38])
  /\ TriphoneFmllrConfig [("align_often", VBool true)]
       ≫= (fun self => getattr self "realign_iters")
     = Ok (ints [1; 5; 10; 15; 20; 25; 30; 35; 38]).
Proof.
  split; [reflexivity|]. split.
  - intros kw a1 a2. unfold TriphoneFmllrConfig. rewrite !without_set. reflexivity.
  - split; vm_compute; reflexivity.
Qed.

(** C7: [TriphoneFmllrConfig()] has [do_fmllr] true, [do_lda_mllt] false,
    [fmllr_update_type] ['full'], [fmllr_iters] [[2, 4, 6, 12]] and the
    schedule [[1, 5, 10, 15, 20, 25, 30, 35, 38]] as [realign_iters]. *)
Theorem TriphoneFmllrConfig_defaults :
  TriphoneFmllrConfig [] ≫= (fun self => getattr self "do_fmllr") = Ok (VBool true)
  /\ TriphoneFmllrConfig [] ≫= (fun self => getattr self "do_lda_mllt") = Ok (VBool false)
  /\ TriphoneFmllrConfig [] ≫= (fun self => getattr self "fmllr_update_type")
     = Ok (VStr "full")
  /\ TriphoneFmllrConfig [] ≫= (fun self => getattr self "fmllr_iters")
     = Ok (ints [2; 4; 6; 12])
  /\ TriphoneFmllrConfig [] ≫= (fun self => getattr self "realign_iters")
     = Ok (ints [1; 5; 10; 15; 20; 25; 30; 35; 38]).
Proof. repeat split; vm_compute; reflexivity. Qed.

(** ** The formatter *)




(** ** Configurations without keyword overrides *)



(** ** The feature-extraction configuration and its file *)

(** C9: when [path] returns, it is the file [mfcc.conf], or
    [mfcc.<job>.conf] when a job is set, in the directory [config] of the
    output directory; that directory and the directories above it exist
    from then on, no file has changed, and deriving the path again returns
    the same path and changes nothing. *)
Theorem mfcc_path_spec (self : MfccConfig) (fs fs' : filesys) (p : string) :
  path self fs = (Ok p, fs') ->
  let cfg := dir_prefix (output_directory self) +:+ "config" in
  p = cfg +:+ "/" +:+ (if is_none (job self) then "mfcc.conf"
                       else "mfcc." +:+ Py.str (job self) +:+ ".conf")
  /\ (forall d, d ∈ ancestors cfg ++ [cfg] -> d ∈ dirs fs')
  /\ dirs fs ⊆ dirs fs'
  /\ files fs' = files fs
  /\ path self fs' = (Ok p, fs').
Proof.
  intros H cfg.
  destruct (path_inv _ _ _ _ H) as (-> & C).
  destruct (config_directory_inv _ _ _ _ C) as (_ & Hf & Hd & _).
  rewrite path_join_config in Hd. fold cfg in Hd.
  split; [|split; [|split; [|split]]].
  - rewrite mfcc_path_in_config_dir, path_join_config. reflexivity.
  - intros d Hin. rewrite Hd, elem_of_union, elem_of_list_to_set. right. exact Hin.
  - rewrite Hd. apply union_subseteq_l.
  - exact Hf.
  - exact (path_again _ _ _ _ H).
Qed.

Lemma mfcc_path_spec_witness :
  let self := {| job := VInt 3; config_dict := []; output_directory := "D" |} in
  exists fs',
    path self empty_fs = (Ok "D/config/mfcc.3.conf", fs')
    /\ "D/config" ∈ dirs fs'
    /\ path self fs' = (Ok "D/config/mfcc.3.conf", fs').
Proof.
  intros self.
  pose proof (path_succeeds self empty_fs (existsb_is_file_empty _ _) eq_refl
                eq_refl eq_refl) as H.
  eexists. split; [exact H|].
  destruct (mfcc_path_spec _ _ _ _ H) as (_ & Hd & _ & _ & Hp).
  split; [|exact Hp].
  apply Hd. apply elem_of_app. right. apply list_elem_of_singleton. reflexivity.
Defined.

(** C3: when the constructor returns, and when [update] returns, the file
    at [path] holds one line ['--<key>=<value>'] per key of [config_dict],
    in the order of the dictionary, each value formatted by [make_safe],
    and nothing of what the file held before; the keys are distinct.
    [update] does return, on the file system the constructor or an earlier
    [update] left, for new options whose values are plain (no list, no
    integer that [str] refuses).  With the overrides [{'use-energy': True}],
    no job and output directory [D], the file [D/config/mfcc.conf] holds
    the lines [--use-energy=true] and [--frame-shift=10]; on an empty file
    system that constructor returns, for every [D] without a component
    [..] that gives names the system accepts. *)
Theorem mfcc_file_reflects_dict :
  (forall (od : string) (j : pyval) (kwargs : option (Dict.t pyval))
          (fs fs' : filesys) (self : MfccConfig),
     MfccConfig_init od j kwargs fs = (Ok self, fs') ->
     job self = j
     /\ output_directory self = od
     /\ config_dict self
        = Dict.update [("use-energy", VBool false); ("frame-shift", VInt 10)]
            (match kwargs with Some kw => kw | None => [] end)
     /\ Dict.wf (config_dict self)
     /\ files fs' = <[mfcc_path self := render (config_dict self)]> (files fs))
  /\ (forall (self : MfccConfig) (kwargs : Dict.t pyval) (fs fs' : filesys),
     snd (update self kwargs) fs = (Ok tt, fs') ->
     let self' := fst (update self kwargs) in
     config_dict self' = Dict.update (config_dict self) kwargs
     /\ (Dict.wf (config_dict self) -> Dict.wf (config_dict self'))
     /\ files fs' = <[mfcc_path self' := render (config_dict self')]> (files fs))
  /\ (forall (od : string) (j : pyval) (kwargs0 : option (Dict.t pyval))
          (fs0 fs : filesys) (self : MfccConfig) (kwargs : Dict.t pyval),
     MfccConfig_init od j kwargs0 fs0 = (Ok self, fs) ->
     plain_items kwargs = true ->
     exists fs', snd (update self kwargs) fs = (Ok tt, fs'))
  /\ (forall (self : MfccConfig) (kwargs0 kwargs : Dict.t pyval) (fs0 fs : filesys),
     snd (update self kwargs0) fs0 = (Ok tt, fs) ->
     plain_items kwargs = true ->
     exists fs', snd (update (fst (update self kwargs0)) kwargs) fs = (Ok tt, fs'))
  /\ (forall (D : string) (fs fs' : filesys) (self : MfccConfig),
     MfccConfig_init D VNone (Some [("use-energy", VBool true)]) fs = (Ok self, fs') ->
     files fs' !! (dir_prefix D +:+ "config/mfcc.conf")
     = Some ("--use-energy=true" +:+ newline +:+ "--frame-shift=10" +:+ newline))
  /\ (forall D : string,
     let cfg := path_join D "config" in
     climbs D = false ->
     forallb name_ok (ancestors cfg ++ [cfg; path_join cfg "mfcc.conf"]) = true ->
     exists self fs',
       MfccConfig_init D VNone (Some [("use-energy", VBool true)]) empty_fs
       = (Ok self, fs')).
Proof.
  assert (Init : forall od j kwargs fs fs' self,
    MfccConfig_init od j kwargs fs = (Ok self, fs') ->
    self = {| job := j;
              config_dict :=
                Dict.update [("use-energy", VBool false); ("frame-shift", VInt 10)]
                  (match kwargs with Some kw => kw | None => [] end);
              output_directory := od |}
    /\ Config.write self fs = (Ok tt, fs')).
  { intros od j kwargs fs fs' self. unfold MfccConfig_init.
    unfold mbind at 1. unfold io_bind.
    match goal with |- context [Config.write ?o fs] =>
      destruct (Config.write o fs) as [[[]|e] fs1] eqn:W end; [|discriminate].
    unfold mret, io_ret. intros H. injection H as <- <-. split; [reflexivity | exact W]. }
  assert (Next : forall (self : MfccConfig) (kwargs : Dict.t pyval) (fs0 fs : filesys),
    Config.write self fs0 = (Ok tt, fs) ->
    plain_items kwargs = true ->
    exists fs', snd (update self kwargs) fs = (Ok tt, fs')).
  { intros self kwargs fs0 fs W K.
    change (snd (update self kwargs)) with (Config.write (updated self kwargs)).
    rewrite (write_after self (updated self kwargs) _ _ W eq_refl eq_refl).
    destruct (write_ok_steps _ _ _ W) as (_ & _ & _ & _ & C).
    change (config_dict (updated self kwargs))
      with (Dict.update (config_dict self) kwargs).
    rewrite (convertible_update _ _ C (plain_items_convertible _ K)).
    eexists. reflexivity. }
  split; [|split; [|split; [|split; [|split]]]].
  - intros od j kwargs fs fs' self H.
    destruct (Init _ _ _ _ _ _ H) as (E & W).
    destruct (write_inv _ _ _ W) as (Hf & _).
    split; [rewrite E; reflexivity|]. split; [rewrite E; reflexivity|].
    split; [rewrite E; reflexivity|]. split; [|exact Hf].
    rewrite E. simpl. apply DictFacts.wf_update.
    unfold Dict.wf. simpl. apply (bool_decide_unpack _). reflexivity.
  - intros self kwargs fs fs' W self'. simpl in W.
    destruct (write_inv _ _ _ W) as (Hf & _).
    split; [reflexivity|]. split; [|exact Hf].
    intros Hwf. apply DictFacts.wf_update, Hwf.
  - intros od j kwargs0 fs0 fs self kwargs H K.
    destruct (Init _ _ _ _ _ _ H) as (_ & W). exact (Next _ _ _ _ W K).
  - intros self kwargs0 kwargs fs0 fs W K. exact (Next _ _ _ _ W K).
  - intros D fs fs' self H.
    destruct (Init _ _ _ _ _ _ H) as (E & W).
    destruct (write_inv _ _ _ W) as (Hf & _).
    rewrite Hf, E, mfcc_path_spelled. simpl. apply lookup_insert_eq.
  - intros D cfg _ N.
    replace (ancestors cfg ++ [cfg; path_join cfg "mfcc.conf"])
      with ((ancestors cfg ++ [cfg]) ++ [path_join cfg "mfcc.conf"]) in N
      by (rewrite <- (assoc_L (++)); reflexivity).
    rewrite forallb_app in N. apply andb_true_iff in N as [N1 N2].
    cbn [forallb] in N2. rewrite andb_true_r in N2.
    set (self := {| job := VNone;
                    config_dict :=
                      Dict.update [("use-energy", VBool false); ("frame-shift", VInt 10)]
                        [("use-energy", VBool true)];
                    output_directory := D |}).
    assert (Wr : writable self = true).
    { unfold writable.
      change (true && negb false && forallb name_ok (ancestors cfg ++ [cfg])
              && name_ok (path_join cfg "mfcc.conf") && true = true).
      rewrite N1, N2. reflexivity. }
    destruct (write_on_empty self Wr) as [fs' W].
    exists self, fs'. unfold MfccConfig_init.
    unfold mbind at 1. unfold io_bind. fold self. rewrite W. reflexivity.
Qed.

(** The constructor of the example, then [update({'frame-shift': 15})]:
    both return, and the file follows the dictionary. *)
Lemma mfcc_file_reflects_dict_witness :
  exists self fs1 fs2,
    MfccConfig_init "D" VNone (Some [("use-energy", VBool true)]) empty_fs
    = (Ok self, fs1)
    /\ files fs1 !! "D/config/mfcc.conf"
       = Some ("--use-energy=true" +:+ newline +:+ "--frame-shift=10" +:+ newline)
    /\ plain_items [("frame-shift", VInt 15)] = true
    /\ snd (update self [("frame-shift", VInt 15)]) fs1 = (Ok tt, fs2)
    /\ files fs2 !! "D/config/mfcc.conf"
       = Some ("--use-energy=true" +:+ newline +:+ "--frame-shift=15" +:+ newline).
Proof.
  destruct mfcc_file_reflects_dict as (Init & Upd & Ret & _ & Part & Run).
  destruct (Run "D" eq_refl eq_refl) as (self & fs1 & H).
  destruct (Ret _ _ _ _ _ _ [("frame-shift", VInt 15)] H eq_refl) as [fs2 U].
  exists self, fs1, fs2.
  split; [exact H|]. split; [exact (Part "D" _ _ _ H)|].
  split; [reflexivity|]. split; [exact U|].
  destruct (Upd _ _ _ _ U) as (_ & _ & Hf).
  destruct (Init _ _ _ _ _ _ H) as (Ej & Eo & Ec & _).
  rewrite Hf. unfold mfcc_path. cbn [update updated fst job output_directory config_dict].
  rewrite Ej, Eo, Ec. apply lookup_insert_eq.
Defined.

End Claims.

(** * Further properties *)

(** ** More on dictionaries *)

Module DictMore.

Section Facts.
Context {V : Type}.
Implicit Types (d kw : Dict.t V) (k : string) (v : V).

Lemma get_none_iff d k : Dict.get d k = None <-> ~ In k (Dict.keys d).
Proof.
  induction d as [|[k' v'] d IH]; simpl.
  - tauto.
  - destruct (String.eqb_spec k k') as [->|Hne].
    + split; [discriminate | intros H; exfalso; apply H; left; reflexivity].
    + rewrite IH. split.
      * intros H [E | Hin]; [congruence | contradiction].
      * intros H Hin. apply H. right. exact Hin.
Qed.

Lemma get_some_in d k v : Dict.get d k = Some v -> In (k, v) d.
Proof.
  induction d as [|[k' v'] d IH]; simpl; [discriminate|].
  destruct (String.eqb_spec k k') as [->|Hne].
  - intros H. injection H as ->. left. reflexivity.
  - intros H. right. apply IH, H.
Qed.

(** With distinct keys every item is what [get] finds. *)
Lemma in_get_some d k v : Dict.wf d -> In (k, v) d -> Dict.get d k = Some v.
Proof.
  unfold Dict.wf. induction d as [|[k' v'] d IH]; simpl; intros Hwf Hin; [contradiction|].
  apply NoDup_cons in Hwf as [Hnin Hwf].
  destruct Hin as [E | Hin].
  - injection E as -> ->. rewrite String.eqb_refl. reflexivity.
  - destruct (String.eqb_spec k k') as [->|Hne]; [|apply IH; assumption].
    exfalso. apply Hnin. apply list_elem_of_In.
    change k' with (fst (k', v)). apply in_map. exact Hin.
Qed.

(** [update] gives the other dictionary's value where it has one, the old
    value elsewhere. *)
Lemma get_update d kw k :
  Dict.wf kw ->
  Dict.get (Dict.update d kw) k
  = match Dict.get kw k with
    | Some v => Some v
    | None => Dict.get d k
    end.
Proof.
  unfold Dict.wf. revert d. induction kw as [|[k' v'] kw IH]; intros d Hwf; simpl.
  - reflexivity.
  - simpl in Hwf. apply NoDup_cons in Hwf as [Hnin Hwf].
    rewrite (IH _ Hwf).
    destruct (String.eqb_spec k k') as [->|Hne].
    + assert (N : Dict.get kw k' = None).
      { apply get_none_iff. intros Hin. apply Hnin, list_elem_of_In, Hin. }
      rewrite N. apply DictFacts.get_set_eq.
    + destruct (Dict.get kw k); [reflexivity|].
      apply DictFacts.get_set_ne. congruence.
Qed.

Lemma set_same d k v : Dict.get d k = Some v -> Dict.set d k v = d.
Proof.
  induction d as [|[k' v'] d IH]; simpl; [discriminate|].
  destruct (String.eqb_spec k k') as [->|Hne].
  - intros H. injection H as ->. reflexivity.
  - intros H. f_equal. apply IH, H.
Qed.

Lemma update_noop d kw :
  (forall k v, In (k, v) kw -> Dict.get d k = Some v) -> Dict.update d kw = d.
Proof.
  induction kw as [|[k v] kw IH]; intros H; simpl; [reflexivity|].
  rewrite (set_same d k v) by (apply H; left; reflexivity).
  apply IH. intros k' v' Hin. apply H. right. exact Hin.
Qed.

(** Updating twice with the same dictionary is updating once. *)
Lemma update_twice d kw :
  Dict.wf kw -> Dict.update (Dict.update d kw) kw = Dict.update d kw.
Proof.
  intros Hwf. apply update_noop. intros k v Hin.
  rewrite (get_update _ _ _ Hwf), (in_get_some _ _ _ Hwf Hin). reflexivity.
Qed.

(** Assigning to a key that is present changes that item and no other. *)
Lemma set_present d k v old :
  Dict.wf d -> Dict.get d k = Some old ->
  Dict.set d k v
  = map (fun kv => if String.eqb k (fst kv) then (fst kv, v) else kv) d.
Proof.
  unfold Dict.wf. induction d as [|[k' v'] d IH]; simpl; intros Hwf H; [discriminate|].
  apply NoDup_cons in Hwf as [Hnin Hwf].
  destruct (String.eqb_spec k k') as [->|Hne].
  - f_equal. clear IH H Hwf. induction d as [|[k0 v0] d IH]; simpl; [reflexivity|].
    simpl in Hnin. apply not_elem_of_cons in Hnin as [Hne Hnin].
    destruct (String.eqb_spec k' k0); [congruence|].
    f_equal. apply IH, Hnin.
  - f_equal. apply IH; assumption.
Qed.

(** Assigning to a key that is absent adds the item at the end. *)
Lemma set_absent d k v : Dict.get d k = None -> Dict.set d k v = d ++ [(k, v)].
Proof.
  induction d as [|[k' v'] d IH]; simpl; [reflexivity|].
  destruct (String.eqb_spec k k') as [->|Hne]; [discriminate|].
  intros H. f_equal. apply IH, H.
Qed.

Lemma absent_from_spec l k : Dict.absent_from l k = true <-> ~ In k l.
Proof.
  unfold Dict.absent_from. rewrite negb_true_iff, <- not_true_iff_false, existsb_exists.
  split.
  - intros H Hin. apply H. exists k. split; [exact Hin | apply String.eqb_refl].
  - intros H (x & Hin & E). apply String.eqb_eq in E as ->. contradiction.
Qed.

(** The keys after [update]: the old keys in place, then the new keys in
    the order of the other dictionary. *)
Lemma keys_update d kw :
  Dict.wf kw ->
  Dict.keys (Dict.update d kw)
  = Dict.keys d ++ List.filter (Dict.absent_from (Dict.keys d)) (Dict.keys kw).
Proof.
  unfold Dict.wf. revert d. induction kw as [|[k v] kw IH]; intros d Hwf; simpl.
  - rewrite app_nil_r. reflexivity.
  - simpl in Hwf. apply NoDup_cons in Hwf as [Hnin Hwf].
    rewrite (IH _ Hwf).
    destruct (in_dec string_dec k (Dict.keys d)) as [Hin | Hout].
    + rewrite (DictFacts.keys_set_in _ _ _ Hin).
      destruct (Dict.absent_from (Dict.keys d) k) eqn:A; [|reflexivity].
      apply absent_from_spec in A. contradiction.
    + rewrite (DictFacts.keys_set_notin _ _ _ Hout).
      assert (A : Dict.absent_from (Dict.keys d) k = true) by (apply absent_from_spec, Hout).
      rewrite A, <- (assoc_L (++)). simpl. do 2 f_equal.
      apply List.filter_ext_in. intros x Hx.
      destruct (Dict.absent_from (Dict.keys d) x) eqn:B.
      * apply absent_from_spec. apply absent_from_spec in B.
        intros Hin. apply in_app_or in Hin as [Hin | [<- | []]]; [contradiction|].
        apply Hnin, list_elem_of_In, Hx.
      * apply not_true_iff_false. apply not_true_iff_false in B.
        intros C. apply B. apply absent_from_spec. apply absent_from_spec in C.
        intros Hin. apply C, in_or_app. left. exact Hin.
Qed.

End Facts.

End DictMore.

(** ** More on objects *)

Module ObjMore.

Import Py Config ConfigFacts.

Lemma setattr_run (self : object) (k : string) (v : pyval) :
  setattr self k v
  = if unassignable (ob_class self) k
    then Raise (if is_property (ob_class self) k || String.eqb k "__weakref__"
                then AttributeError else TypeError)
    else Ok (assign self k v).
Proof.
  unfold setattr, unassignable.
  destruct (is_property (ob_class self) k); [reflexivity|].
  destruct (String.eqb k "__weakref__"); [reflexivity|].
  destruct (String.eqb k "__class__" || String.eqb k "__dict__") eqn:E; simpl;
    simpl in E; rewrite E; reflexivity.
Qed.

(** The attribute dictionary after storing all the items. *)
Lemma setattr_items_run (self : object) (kv : list (string * pyval)) :
  existsb (unassignable (ob_class self)) (Dict.keys kv) = false ->
  setattr_items self kv
  = Ok {| ob_class := ob_class self;
          ob_dict := fold_left (fun m x => <[fst x := snd x]> m) kv (ob_dict self) |}.
Proof.
  revert self. induction kv as [|[k v] kv IH]; intros self; simpl.
  - destruct self. reflexivity.
  - intros H. apply orb_false_iff in H as [H1 H2].
    rewrite setattr_run, H1. simpl. rewrite IH by exact H2. reflexivity.
Qed.

(** Storing the items raises when [setattr] refuses one of the names. *)
Lemma setattr_items_refuses (self : object) (kv : list (string * pyval)) :
  existsb (unassignable (ob_class self)) (Dict.keys kv) = true ->
  exists e, setattr_items self kv = Raise e /\ (e = AttributeError \/ e = TypeError).
Proof.
  revert self. induction kv as [|[k v] kv IH]; intros self; simpl; [discriminate|].
  rewrite setattr_run. destruct (unassignable (ob_class self) k); simpl.
  - intros _. eexists. split; [reflexivity|].
    destruct (is_property (ob_class self) k || String.eqb k "__weakref__"); auto.
  - intros H. apply (IH (assign self k v)). exact H.
Qed.

Lemma lookup_fold_insert (kv : Dict.t pyval) (m : gmap string pyval) (k : string) :
  Dict.wf kv ->
  fold_left (fun m x => <[fst x := snd x]> m) kv m !! k
  = match Dict.get kv k with
    | Some v => Some v
    | None => m !! k
    end.
Proof.
  unfold Dict.wf. revert m. induction kv as [|[k' v'] kv IH]; intros m Hwf; simpl.
  - reflexivity.
  - simpl in Hwf. apply NoDup_cons in Hwf as [Hnin Hwf].
    rewrite (IH _ Hwf).
    destruct (String.eqb_spec k k') as [->|Hne].
    + assert (N : Dict.get kv k' = None).
      { apply DictMore.get_none_iff. intros Hin. apply Hnin, list_elem_of_In, Hin. }
      rewrite N. apply lookup_insert_eq.
    + destruct (Dict.get kv k); [reflexivity|].
      apply lookup_insert_ne. congruence.
Qed.

Lemma existsb_false_in {A} (f : A -> bool) (l : list A) (x : A) :
  existsb f l = false -> In x l -> f x = false.
Proof.
  intros H Hin. apply not_true_iff_false. intros E.
  apply not_true_iff_false in H. apply H, existsb_exists. exists x. auto.
Qed.

(** A name that is no property is read from the object. *)
Lemma getattr_plain (self : object) (k : string) :
  is_property (ob_class self) k = false -> getattr self k = field self k.
Proof.
  unfold getattr, is_property, properties.
  destruct (ob_class self); simpl; intros H;
    try reflexivity;
    apply orb_false_iff in H as [H1 H2]; apply orb_false_iff in H2 as [H2 _];
    rewrite H1, H2; reflexivity.
Qed.

(** When storing the items returns, each keyword can be read back. *)
Lemma setattr_items_keyword (self o : object) (kv : Dict.t pyval) (k : string) (v : pyval) :
  setattr_items self kv = Ok o -> Dict.wf kv -> Dict.get kv k = Some v ->
  getattr o k = Ok v.
Proof.
  destruct (existsb (unassignable (ob_class self)) (Dict.keys kv)) eqn:E.
  - destruct (setattr_items_refuses _ _ E) as (e & R & _). rewrite R. discriminate.
  - rewrite (setattr_items_run _ _ E).
    intros H Hwf G. injection H as <-.
    rewrite getattr_plain.
    + apply field_lookup. simpl. rewrite (lookup_fold_insert _ _ _ Hwf), G. reflexivity.
    + simpl. assert (U : unassignable (ob_class self) k = false).
      { apply (existsb_false_in _ _ _ E).
        apply DictMore.get_some_in in G.
        change k with (fst (k, v)). apply in_map. exact G. }
      unfold unassignable in U. apply orb_false_iff in U as [U _].
      apply orb_false_iff in U as [U _]. apply orb_false_iff in U as [U _]. exact U.
Qed.

Lemma in_keys_set (d : Dict.t pyval) (k k' : string) (v : pyval) :
  In k' (Dict.keys (Dict.set d k v)) <-> In k' (Dict.keys d) \/ k' = k.
Proof.
  destruct (in_dec string_dec k (Dict.keys d)) as [Hin | Hout].
  - rewrite (DictFacts.keys_set_in _ _ _ Hin). split; [auto|].
    intros [H | ->]; assumption.
  - rewrite (DictFacts.keys_set_notin _ _ _ Hout), in_app_iff. simpl.
    split; intros [H | H]; auto; destruct H as [<- | []]; auto.
Qed.

Lemma in_keys_update (d kw : Dict.t pyval) (k : string) :
  In k (Dict.keys (Dict.update d kw)) <-> In k (Dict.keys d) \/ In k (Dict.keys kw).
Proof.
  revert d. induction kw as [|[k' v'] kw IH]; intros d; simpl.
  - tauto.
  - rewrite IH, in_keys_set. split; intros H; intuition auto.
Qed.

(** Defaults that the constructor takes do not change whether it takes
    the keywords. *)
Lemma existsb_update (f : string -> bool) (d kw : Dict.t pyval) :
  existsb f (Dict.keys d) = false ->
  existsb f (Dict.keys (Dict.update d kw)) = existsb f (Dict.keys kw).
Proof.
  intros H. apply eq_true_iff_eq. rewrite !existsb_exists. split.
  - intros (x & Hin & P). exists x. split; [|exact P].
    apply in_keys_update in Hin as [Hin | Hin]; [|exact Hin].
    rewrite (existsb_false_in _ _ _ H Hin) in P. discriminate P.
  - intros (x & Hin & P). exists x. split; [|exact P].
    apply in_keys_update. right. exact Hin.
Qed.

(** A keyword is named [self] when [get] finds that key. *)
Lemma get_self (kwargs : Dict.t pyval) :
  existsb (fun k => String.eqb k "self") (Dict.keys kwargs)
  = match Dict.get kwargs "self" with Some _ => true | None => false end.
Proof.
  unfold Dict.keys. induction kwargs as [|[k v] kw IH]; [reflexivity|].
  cbn [map existsb Dict.get fst orb].
  rewrite (String.eqb_sym k "self"). destruct (String.eqb "self" k); [reflexivity | exact IH].
Qed.

Lemma existsb_refused (c : class) (l : list string) :
  existsb (refused c) l
  = existsb (fun k => String.eqb k "self") l || existsb (unassignable c) l.
Proof.
  unfold refused. induction l as [|k l IH]; [reflexivity|].
  cbn [existsb]. rewrite IH.
  destruct (String.eqb k "self"), (unassignable c k),
    (existsb (fun k => String.eqb k "self") l), (existsb (unassignable c) l); reflexivity.
Qed.

(** A call that stores its keywords by [setattr]: it raises exactly when a
    keyword is refused. *)
Lemma stored_keywords_run (self : object) (kwargs : Dict.t pyval) :
  if existsb (refused (ob_class self)) (Dict.keys kwargs)
  then exists e, bind_keywords kwargs (setattr_items self (Dict.items kwargs)) = Raise e
                 /\ (e = AttributeError \/ e = TypeError)
  else exists o, bind_keywords kwargs (setattr_items self (Dict.items kwargs)) = Ok o.
Proof.
  rewrite existsb_refused, get_self. unfold bind_keywords, Dict.items.
  destruct (Dict.get kwargs "self"); simpl.
  - eexists. split; [reflexivity | auto].
  - destruct (existsb (unassignable (ob_class self)) (Dict.keys kwargs)) eqn:E.
    + apply setattr_items_refuses, E.
    + rewrite (setattr_items_run _ _ E). eexists. reflexivity.
Qed.

(** The base constructor raises exactly when a keyword is refused. *)
Lemma MonophoneConfig_init_run (c : class) (kwargs : Dict.t pyval) :
  if existsb (refused c) (Dict.keys kwargs)
  then exists e, MonophoneConfig_init c kwargs = Raise e
                 /\ (e = AttributeError \/ e = TypeError)
  else exists o, MonophoneConfig_init c kwargs = Ok o.
Proof.
  unfold MonophoneConfig_init. cbv zeta.
  match goal with |- context [setattr_items ?o _] =>
    assert (Ec : ob_class o = c) by (destruct (truthy _); reflexivity);
    pose proof (stored_keywords_run o kwargs) as R
  end.
  rewrite Ec in R. exact R.
Qed.

Lemma MonophoneConfig_init_keyword (c : class) (kwargs : Dict.t pyval)
    (o : object) (k : string) (v : pyval) :
  MonophoneConfig_init c kwargs = Ok o -> Dict.wf kwargs ->
  Dict.get kwargs k = Some v -> getattr o k = Ok v.
Proof.
  unfold MonophoneConfig_init. intros H. apply bind_keywords_ok in H. revert H.
  apply setattr_items_keyword.
Qed.

(** [TriphoneConfig] raises exactly when a keyword is refused. *)
Lemma TriphoneConfig_init_run (c : class) (kwargs : Dict.t pyval) :
  if existsb (refused c) (Dict.keys kwargs)
  then exists e, TriphoneConfig_init c kwargs = Raise e
                 /\ (e = AttributeError \/ e = TypeError)
  else exists o, TriphoneConfig_init c kwargs = Ok o.
Proof.
  unfold TriphoneConfig_init. cbv zeta.
  pose proof (MonophoneConfig_init_run c
    (Dict.update
       [("num_iters", VInt 35); ("initial_gauss_count", VInt 3100);
        ("max_gauss_count", VInt 50000); ("cluster_threshold", VInt 100);
        ("do_lda_mllt", VBool false)] kwargs)) as R.
  rewrite existsb_update in R by (destruct c; reflexivity).
  destruct (existsb (refused c) (Dict.keys kwargs)) eqn:E.
  - unfold bind_keywords. destruct (Dict.get kwargs "self").
    + eexists. split; [reflexivity | auto].
    + exact R.
  - rewrite existsb_refused in E. apply orb_false_iff in E as [E _].
    rewrite get_self in E. unfold bind_keywords.
    destruct (Dict.get kwargs "self"); [discriminate E | exact R].
Qed.

Lemma LdaMlltConfig_run (kwargs : Dict.t pyval) :
  if existsb (refused LdaMlltConfig_t) (Dict.keys kwargs)
  then exists e, LdaMlltConfig kwargs = Raise e /\ (e = AttributeError \/ e = TypeError)
  else exists o, LdaMlltConfig kwargs = Ok o.
Proof.
  unfold LdaMlltConfig. cbv zeta.
  match goal with |- context [setattr_items ?o _] =>
    exact (stored_keywords_run o kwargs)
  end.
Qed.

Lemma get_without_eq (k : string) (kw : Dict.t pyval) :
  Dict.get (without k kw) k = None.
Proof.
  unfold without. induction kw as [|[k' v'] kw IH]; simpl; [reflexivity|].
  destruct (String.eqb_spec k' k) as [->|Hne]; simpl; [exact IH|].
  destruct (String.eqb_spec k k'); [congruence | exact IH].
Qed.

Lemma get_without_ne (a k : string) (kw : Dict.t pyval) :
  k <> a -> Dict.get (without a kw) k = Dict.get kw k.
Proof.
  intros Hne. unfold without. induction kw as [|[k' v'] kw IH]; simpl; [reflexivity|].
  destruct (String.eqb_spec k' a) as [->|Hk]; simpl.
  - destruct (String.eqb_spec k a); [contradiction | exact IH].
  - destruct (String.eqb_spec k k'); [reflexivity | exact IH].
Qed.

Lemma wf_without (a : string) (kw : Dict.t pyval) : Dict.wf kw -> Dict.wf (without a kw).
Proof.
  unfold Dict.wf, without. induction kw as [|[k' v'] kw IH]; simpl; intros H; [exact H|].
  apply NoDup_cons in H as [Hnin Hwf].
  destruct (negb (String.eqb k' a)); simpl; [|apply IH, Hwf].
  apply NoDup_cons. split; [|apply IH, Hwf].
  intros Hin. apply Hnin. apply list_elem_of_In in Hin. apply list_elem_of_In.
  unfold Dict.keys in *. apply in_map_iff in Hin as (x & E & Hx).
  apply List.filter_In in Hx as [Hx _]. apply in_map_iff. exists x. auto.
Qed.

End ObjMore.

(** ** More on the file of the feature-extraction configuration *)

Module OsMore.

Import Py Config Os OsFacts.

Lemma MfccConfig_init_inv (od : string) (j : pyval) (kwargs : option (Dict.t pyval))
    (fs fs' : filesys) (self : MfccConfig) :
  MfccConfig_init od j kwargs fs = (Ok self, fs') ->
  self = {| job := j;
            config_dict :=
              Dict.update [("use-energy", VBool false); ("frame-shift", VInt 10)]
                (match kwargs with Some kw => kw | None => [] end);
            output_directory := od |}
  /\ Config.write self fs = (Ok tt, fs').
Proof.
  unfold MfccConfig_init. unfold mbind at 1. unfold io_bind.
  match goal with |- context [Config.write ?o fs] =>
    destruct (Config.write o fs) as [[[]|e] fs1] eqn:W end; [|discriminate].
  unfold mret, io_ret. intros H. injection H as <- <-. split; [reflexivity | exact W].
Qed.

(** The steps of a [write] that returns. *)
Lemma write_steps (self : MfccConfig) (fs fs' : filesys) :
  Config.write self fs = (Ok tt, fs') ->
  exists fs1 fs2,
    path self fs = (Ok (mfcc_path self), fs1)
    /\ open_w (mfcc_path self) fs1 = (Ok tt, fs2)
    /\ fs' = {| dirs := dirs fs1;
                files := <[mfcc_path self := render (config_dict self)]> (files fs) |}.
Proof.
  intros W. destruct (write_ok_steps _ _ _ W) as (fs1 & fs2 & P & O & C).
  exists fs1, fs2. split; [exact P|]. split; [exact O|].
  rewrite (write_run _ _ _ _ P O), C, (converted_all _ C) in W.
  injection W as <-. reflexivity.
Qed.

(** A [path] that raises has touched no file. *)
Lemma path_raise_files (self : MfccConfig) (fs fs' : filesys) (e : exn) :
  path self fs = (Raise e, fs') -> files fs' = files fs.
Proof.
  rewrite path_run. destruct (repr_refuses (job self)).
  - intros H. injection H as _ <-. reflexivity.
  - unfold config_directory, makedirs, mbind, io_bind, mret, io_ret.
    set (chain := ancestors (path_join (output_directory self) "config")
                  ++ [path_join (output_directory self) "config"]).
    pose proof (mkdir_chain_files chain fs) as F.
    destruct (mkdir_chain chain fs) as [[[]|e1] fs1]; [discriminate|].
    intros H. injection H as _ <-. exact F.
Qed.

(** The items [converted] keeps are a prefix, a proper one when a value
    does not convert. *)
Lemma converted_split (d : Dict.t pyval) :
  exists d2, d = converted d ++ d2 /\ (convertible d = false -> d2 <> []).
Proof.
  induction d as [|[k v] d (d2 & E & N)].
  - exists []. split; [reflexivity | discriminate].
  - cbn [converted convertible forallb snd]. destruct (repr_refuses v).
    + exists ((k, v) :: d). split; [reflexivity | discriminate].
    + exists d2. split; [simpl; f_equal; exact E | exact N].
Qed.

(** A [write] that raises has left every file as it was, or has replaced
    the file at [path] by the lines of the items before the one it raised
    on. *)
Lemma write_raise_files (self : MfccConfig) (fs fs' : filesys) (e : exn) :
  Config.write self fs = (Raise e, fs') ->
  files fs' = files fs
  \/ exists d1 d2,
       config_dict self = d1 ++ d2 /\ d2 <> []
       /\ files fs' = <[mfcc_path self := render d1]> (files fs).
Proof.
  intros W. destruct (path self fs) as [[p|e1] fs1] eqn:P.
  - destruct (path_inv _ _ _ _ P) as (-> & C).
    destruct (config_directory_inv _ _ _ _ C) as (_ & Hf & _).
    destruct (open_w (mfcc_path self) fs1) as [[[]|e2] fs2] eqn:O.
    + rewrite (write_run _ _ _ _ P O) in W.
      destruct (convertible (config_dict self)) eqn:Cv; [discriminate W|].
      injection W as _ <-. right.
      destruct (converted_split (config_dict self)) as (d2 & E & N).
      exists (converted (config_dict self)), d2.
      split; [exact E|]. split; [exact (N Cv) | reflexivity].
    + left. unfold Config.write in W. unfold mbind at 1 in W. unfold io_bind in W.
      rewrite P in W. unfold mbind at 1 in W. unfold io_bind in W. rewrite O in W.
      injection W as _ <-. rewrite (open_w_raise _ _ _ _ O). exact Hf.
  - left. unfold Config.write in W. unfold mbind at 1 in W. unfold io_bind in W.
    rewrite P in W. injection W as _ <-. exact (path_raise_files _ _ _ _ P).
Qed.

(** A [write] that raises has touched no file but the one at [path]. *)
Lemma write_raise_others (self : MfccConfig) (fs fs' : filesys) (e : exn) (q : string) :
  Config.write self fs = (Raise e, fs') -> q <> mfcc_path self ->
  files fs' !! q = files fs !! q.
Proof.
  intros W Hq. destruct (write_raise_files _ _ _ _ W) as [-> | (d1 & d2 & _ & _ & ->)].
  - reflexivity.
  - apply lookup_insert_ne. congruence.
Qed.

Lemma render_snoc (d : Dict.t pyval) (x : string * pyval) :
  render (d ++ [x]) = render d +:+ line x.
Proof.
  induction d as [|y d IH]; simpl.
  - rewrite append_empty_r. reflexivity.
  - rewrite IH, append_assoc. reflexivity.
Qed.

End OsMore.

(** ** Keywords, defaults and derived values of the training stages *)

Module Extras.

Import Py Config Os ConfigFacts ObjMore OsFacts.

Lemma wf_literal (d : Dict.t pyval) :
  bool_decide (NoDup (Dict.keys d)) = true -> Dict.wf d.
Proof. intros H. apply bool_decide_eq_true in H. exact H. Qed.

(** X1: a keyword given to [MonophoneConfig] or [LdaMlltConfig] is an
    attribute of the object built, with the value given, whether it
    replaces a default or adds a name the class does not know. *)
Theorem keyword_becomes_attribute :
  (forall (kwargs : Dict.t pyval) (o : object) (k : string) (v : pyval),
     MonophoneConfig kwargs = Ok o -> Dict.wf kwargs ->
     Dict.get kwargs k = Some v -> getattr o k = Ok v)
  /\ (forall (kwargs : Dict.t pyval) (o : object) (k : string) (v : pyval),
     LdaMlltConfig kwargs = Ok o -> Dict.wf kwargs ->
     Dict.get kwargs k = Some v -> getattr o k = Ok v).
Proof.
  split.
  - intros kwargs o k v. apply MonophoneConfig_init_keyword.
  - intros kwargs o k v H. unfold LdaMlltConfig in H. apply bind_keywords_ok in H.
    cbv zeta in H. revert H. apply setattr_items_keyword.
Qed.

Lemma keyword_becomes_attribute_witness :
  exists o,
    MonophoneConfig [("beam", VInt 20); ("speaker", VStr "a")] = Ok o
    /\ getattr o "beam" = Ok (VInt 20)
    /\ getattr o "speaker" = Ok (VStr "a").
Proof.
  pose proof (MonophoneConfig_init_run MonophoneConfig_t
                [("beam", VInt 20); ("speaker", VStr "a")]) as [o H].
  exists o. split; [exact H|].
  assert (W : Dict.wf [("beam", VInt 20); ("speaker", VStr "a")])
    by (apply wf_literal; reflexivity).
  split.
  - exact (proj1 keyword_becomes_attribute _ o "beam" _ H W eq_refl).
  - exact (proj1 keyword_becomes_attribute _ o "speaker" _ H W eq_refl).
Defined.

(** X2: [MonophoneConfig], [TriphoneConfig] and [LdaMlltConfig] raise,
    [AttributeError] or [TypeError], exactly when a keyword is refused:
    when it is named [self], [max_iter_inc] or [inc_gauss_count] (the two
    properties without a setter), [__weakref__], [__class__] or
    [__dict__]; with any other keywords they return an object. *)
Theorem refused_keyword_raises (kwargs : Dict.t pyval) :
  (if existsb (refused MonophoneConfig_t) (Dict.keys kwargs)
   then exists e, MonophoneConfig kwargs = Raise e
                  /\ (e = AttributeError \/ e = TypeError)
   else exists o, MonophoneConfig kwargs = Ok o)
  /\ (if existsb (refused TriphoneConfig_t) (Dict.keys kwargs)
      then exists e, TriphoneConfig kwargs = Raise e
                     /\ (e = AttributeError \/ e = TypeError)
      else exists o, TriphoneConfig kwargs = Ok o)
  /\ (if existsb (refused LdaMlltConfig_t) (Dict.keys kwargs)
      then exists e, LdaMlltConfig kwargs = Raise e
                     /\ (e = AttributeError \/ e = TypeError)
      else exists o, LdaMlltConfig kwargs = Ok o)
  /\ (forall (c : class) (k : string),
     monophone_family c = true \/ c = LdaMlltConfig_t ->
     refused c k = true
     <-> In k ["self"; "max_iter_inc"; "inc_gauss_count";
               "__weakref__"; "__class__"; "__dict__"])
  /\ MonophoneConfig [("max_iter_inc", VInt 5)] = Raise AttributeError
  /\ MonophoneConfig [("inc_gauss_count", VInt 5)] = Raise AttributeError
  /\ MonophoneConfig [("__weakref__", VInt 1)] = Raise AttributeError
  /\ MonophoneConfig [("__class__", VInt 1)] = Raise TypeError
  /\ MonophoneConfig [("__dict__", VInt 1)] = Raise TypeError
  /\ MonophoneConfig [("self", VInt 1)] = Raise TypeError.
Proof.
  split; [apply MonophoneConfig_init_run|].
  split; [apply TriphoneConfig_init_run|].
  split; [apply LdaMlltConfig_run|].
  split; [|repeat split; vm_compute; reflexivity].
  intros c k Hc.
  assert (P : is_property c k
              = String.eqb k "max_iter_inc" || String.eqb k "inc_gauss_count").
  { unfold is_property.
    destruct Hc as [Hc | ->]; [destruct c; try discriminate Hc|];
      cbn [properties existsb]; rewrite orb_false_r; reflexivity. }
  unfold refused, unassignable. rewrite P. cbn [In].
  rewrite !orb_true_iff, !String.eqb_eq. intuition auto.
Qed.

Lemma refused_keyword_raises_witness :
  (monophone_family TriphoneConfig_t = true \/ TriphoneConfig_t = LdaMlltConfig_t)
  /\ refused TriphoneConfig_t "__class__" = true
  /\ (exists e, TriphoneConfig [("beam", VInt 12); ("__class__", VInt 1)] = Raise e)
  /\ exists o, TriphoneConfig [("beam", VInt 12)] = Ok o.
Proof.
  assert (Hc : monophone_family TriphoneConfig_t = true
               \/ TriphoneConfig_t = LdaMlltConfig_t) by (left; reflexivity).
  split; [exact Hc|]. split; [|split].
  - destruct (refused_keyword_raises []) as (_ & _ & _ & R & _).
    apply (R TriphoneConfig_t "__class__" Hc). right. right. right. right. left.
    reflexivity.
  - destruct (refused_keyword_raises [("beam", VInt 12); ("__class__", VInt 1)])
      as (_ & (e & E & _) & _).
    exists e. exact E.
  - destruct (refused_keyword_raises [("beam", VInt 12)]) as (_ & R & _).
    exact R.
Defined.

(** X3: in [MonophoneConfig] and in [TriphoneConfig], which passes its
    keywords on, [realign_iters] follows the truth value of the keyword
    [align_often], whatever its type: the 21-element schedule when it is
    true, the 9-element one when it is false or absent; so unless
    [realign_iters] is itself a keyword. *)
Theorem realign_iters_by_truth_value :
  (forall (kwargs : Dict.t pyval) (o : object),
     MonophoneConfig kwargs = Ok o ->
     Dict.get kwargs "realign_iters" = None ->
     getattr o "realign_iters"
     = Ok (if truthy (Dict.get_default kwargs "align_often" (VBool false))
           then ints often_iters else ints seldom_iters))
  /\ (forall (kwargs : Dict.t pyval) (o : object),
     TriphoneConfig kwargs = Ok o -> Dict.wf kwargs ->
     Dict.get kwargs "realign_iters" = None ->
     getattr o "realign_iters"
     = Ok (if truthy (Dict.get_default kwargs "align_often" (VBool false))
           then ints often_iters else ints seldom_iters)).
Proof.
  assert (Base : forall c kwargs o,
    monophone_family c = true ->
    MonophoneConfig_init c kwargs = Ok o ->
    Dict.get kwargs "realign_iters" = None ->
    getattr o "realign_iters"
    = Ok (if truthy (Dict.get_default kwargs "align_often" (VBool false))
          then ints often_iters else ints seldom_iters)).
  { intros c kwargs o Hc H G.
    destruct (Claims.MonophoneConfig_init_stored _ _ _ H) as (Ec & _ & R).
    rewrite getattr_plain by (rewrite Ec; destruct c; (reflexivity || discriminate Hc)).
    apply field_lookup, R, G. }
  split.
  - intros kwargs o. apply Base. reflexivity.
  - intros kwargs o H Hwf G. apply TriphoneConfig_init_inv in H.
    apply Base in H; [|reflexivity|].
    + rewrite H. unfold Dict.get_default.
      rewrite (DictMore.get_update _ _ _ Hwf).
      destruct (Dict.get kwargs "align_often"); reflexivity.
    + rewrite (DictMore.get_update _ _ _ Hwf), G. reflexivity.
Qed.

Lemma realign_iters_by_truth_value_witness :
  exists o,
    TriphoneConfig [("align_often", VInt 1)] = Ok o
    /\ getattr o "realign_iters" = Ok (ints often_iters).
Proof.
  pose proof (TriphoneConfig_init_run TriphoneConfig_t [("align_often", VInt 1)])
    as [o H].
  exists o. split; [exact H|].
  exact (proj2 realign_iters_by_truth_value _ o H
           (wf_literal [("align_often", VInt 1)] eq_refl) eq_refl).
Defined.

(** Reads an attribute that no keyword names off the defaults of the base
    constructor. *)
Ltac base_default H G :=
  unfold MonophoneConfig_init in H; apply bind_keywords_ok in H; cbv zeta in H;
  rewrite getattr_plain
    by (rewrite (setattr_items_class _ _ _ H); destruct (truthy _); reflexivity);
  apply field_lookup; rewrite (setattr_items_other _ _ _ _ H G);
  destruct (truthy _); vm_compute; reflexivity.

(** X4: the three levels of defaults of [TriphoneConfig].  A keyword of
    the caller wins; a name the caller leaves out takes the default of
    [TriphoneConfig] where it has one, also against the base default
    ([num_iters] is 35, not 40; [max_gauss_count] is 50000, not 1000); any
    other name keeps the default of [MonophoneConfig]. *)
Theorem TriphoneConfig_precedence (kwargs : Dict.t pyval) (o : object) :
  TriphoneConfig kwargs = Ok o -> Dict.wf kwargs ->
  (forall k v, Dict.get kwargs k = Some v -> getattr o k = Ok v)
  /\ (forall k v,
        Dict.get kwargs k = None ->
        Dict.get [("num_iters", VInt 35); ("initial_gauss_count", VInt 3100);
                  ("max_gauss_count", VInt 50000); ("cluster_threshold", VInt 100);
                  ("do_lda_mllt", VBool false)] k = Some v ->
        getattr o k = Ok v)
  /\ (Dict.get kwargs "beam" = None -> getattr o "beam" = Ok (VInt 10))
  /\ (Dict.get kwargs "retry_beam" = None -> getattr o "retry_beam" = Ok (VInt 40))
  /\ (Dict.get kwargs "do_fmllr" = None -> getattr o "do_fmllr" = Ok (VBool false)).
Proof.
  intros H Hwf. apply TriphoneConfig_init_inv in H.
  set (defaults := [("num_iters", VInt 35); ("initial_gauss_count", VInt 3100);
                    ("max_gauss_count", VInt 50000); ("cluster_threshold", VInt 100);
                    ("do_lda_mllt", VBool false)]) in *.
  assert (Wd : Dict.wf defaults) by (apply wf_literal; reflexivity).
  pose proof (DictFacts.wf_update defaults kwargs Wd) as Wm.
  split; [|split; [|split; [|split]]].
  - intros k v G. apply (MonophoneConfig_init_keyword _ _ _ _ _ H Wm).
    rewrite (DictMore.get_update _ _ _ Hwf), G. reflexivity.
  - intros k v G D. apply (MonophoneConfig_init_keyword _ _ _ _ _ H Wm).
    rewrite (DictMore.get_update _ _ _ Hwf), G. exact D.
  - intros G.
    assert (G' : Dict.get (Dict.update defaults kwargs) "beam" = None)
      by (rewrite (DictMore.get_update _ _ _ Hwf), G; reflexivity).
    base_default H G'.
  - intros G.
    assert (G' : Dict.get (Dict.update defaults kwargs) "retry_beam" = None)
      by (rewrite (DictMore.get_update _ _ _ Hwf), G; reflexivity).
    base_default H G'.
  - intros G.
    assert (G' : Dict.get (Dict.update defaults kwargs) "do_fmllr" = None)
      by (rewrite (DictMore.get_update _ _ _ Hwf), G; reflexivity).
    base_default H G'.
Qed.

Lemma TriphoneConfig_precedence_witness :
  exists o,
    TriphoneConfig [("max_gauss_count", VInt 9000)] = Ok o
    /\ getattr o "max_gauss_count" = Ok (VInt 9000)
    /\ getattr o "num_iters" = Ok (VInt 35)
    /\ getattr o "beam" = Ok (VInt 10).
Proof.
  pose proof (TriphoneConfig_init_run TriphoneConfig_t [("max_gauss_count", VInt 9000)])
    as [o H].
  exists o. split; [exact H|].
  destruct (TriphoneConfig_precedence _ o H
              (wf_literal [("max_gauss_count", VInt 9000)] eq_refl))
    as (P1 & P2 & P3 & _).
  split; [exact (P1 "max_gauss_count" _ eq_refl)|].
  split; [exact (P2 "num_iters" _ eq_refl eq_refl) | exact (P3 eq_refl)].
Defined.

(** X5: a [TriphoneFmllrConfig] never has an attribute [align_often],
    whatever the call passes for it; every other keyword of the call is an
    attribute with the value given, and names left out take the defaults of
    [TriphoneFmllrConfig] ([do_fmllr] true) and, below them, of
    [TriphoneConfig] ([num_iters] 35). *)
Theorem TriphoneFmllrConfig_keywords (kw : Dict.t pyval) (o : object) :
  TriphoneFmllrConfig kw = Ok o ->
  getattr o "align_often" = Raise AttributeError
  /\ (Dict.wf kw ->
      (forall k v, k <> "align_often" -> Dict.get kw k = Some v -> getattr o k = Ok v)
      /\ (Dict.get kw "do_fmllr" = None -> getattr o "do_fmllr" = Ok (VBool true))
      /\ (Dict.get kw "num_iters" = None -> getattr o "num_iters" = Ok (VInt 35))).
Proof.
  intros H. unfold TriphoneFmllrConfig in H.
  apply TriphoneFmllrConfig_init_inv, TriphoneConfig_init_inv in H.
  set (d1 := [("do_fmllr", VBool true); ("do_lda_mllt", VBool false);
              ("fmllr_update_type", VStr "full"); ("fmllr_iters", ints [2; 4; 6; 12]);
              ("fmllr_power", flt 2 (-1)); ("silence_weight", flt 0 0)]) in *.
  set (d2 := [("num_iters", VInt 35); ("initial_gauss_count", VInt 3100);
              ("max_gauss_count", VInt 50000); ("cluster_threshold", VInt 100);
              ("do_lda_mllt", VBool false)]) in *.
  set (rest := without "align_often" kw) in *.
  assert (W1 : Dict.wf d1) by (apply wf_literal; reflexivity).
  assert (W2 : Dict.wf d2) by (apply wf_literal; reflexivity).
  pose proof (DictFacts.wf_update d1 rest W1) as Wi.
  pose proof (DictFacts.wf_update d2 (Dict.update d1 rest) W2) as Wm.
  split.
  - assert (G : Dict.get (Dict.update d2 (Dict.update d1 rest)) "align_often" = None).
    { rewrite DictFacts.get_update_other; [reflexivity|].
      rewrite DictFacts.get_update_other; [reflexivity|].
      apply get_without_eq. }
    unfold MonophoneConfig_init in H. apply bind_keywords_ok in H. cbv zeta in H.
    rewrite getattr_plain
      by (rewrite (setattr_items_class _ _ _ H); destruct (truthy _); reflexivity).
    apply field_missing. rewrite (setattr_items_other _ _ _ _ H G).
    destruct (truthy _); vm_compute; reflexivity.
  - intros Hwf. pose proof (wf_without "align_often" kw Hwf) as Wr. fold rest in Wr.
    assert (M : forall k, k <> "align_often" ->
      Dict.get (Dict.update d2 (Dict.update d1 rest)) k
      = match Dict.get kw k with
        | Some v => Some v
        | None => match Dict.get d1 k with
                  | Some v => Some v
                  | None => Dict.get d2 k
                  end
        end).
    { intros k Hk. rewrite (DictMore.get_update _ _ _ Wi), (DictMore.get_update _ _ _ Wr).
      unfold rest. rewrite (get_without_ne _ _ _ Hk).
      destruct (Dict.get kw k); [reflexivity|]. destruct (Dict.get d1 k); reflexivity. }
    split; [|split].
    + intros k v Hk G. apply (MonophoneConfig_init_keyword _ _ _ _ _ H Wm).
      rewrite (M k Hk), G. reflexivity.
    + intros G. apply (MonophoneConfig_init_keyword _ _ _ _ _ H Wm).
      rewrite (M "do_fmllr") by discriminate. rewrite G. reflexivity.
    + intros G. apply (MonophoneConfig_init_keyword _ _ _ _ _ H Wm).
      rewrite (M "num_iters") by discriminate. rewrite G. reflexivity.
Qed.

Lemma TriphoneFmllrConfig_keywords_witness :
  exists o,
    TriphoneFmllrConfig [("align_often", VBool false); ("beam", VInt 12)] = Ok o
    /\ getattr o "align_often" = Raise AttributeError
    /\ getattr o "beam" = Ok (VInt 12).
Proof.
  assert (R : exists o,
    TriphoneFmllrConfig [("align_often", VBool false); ("beam", VInt 12)] = Ok o).
  { exact (TriphoneConfig_init_run TriphoneFmllrConfig_t
             (Dict.update
                [("do_fmllr", VBool true); ("do_lda_mllt", VBool false);
                 ("fmllr_update_type", VStr "full"); ("fmllr_iters", ints [2; 4; 6; 12]);
                 ("fmllr_power", flt 2 (-1)); ("silence_weight", flt 0 0)]
                [("beam", VInt 12)])). }
  destruct R as [o H]. exists o. split; [exact H|].
  destruct (TriphoneFmllrConfig_keywords _ o H) as (A & B).
  split; [exact A|].
  destruct (B (wf_literal [("align_often", VBool false); ("beam", VInt 12)] eq_refl))
    as (K & _).
  exact (K "beam" _ ltac:(discriminate) eq_refl).
Defined.

(** X6: with integer counts, a difference [0 <= max_gauss_count -
    initial_gauss_count < 2^53] and a positive [max_iter_inc],
    [inc_gauss_count] is a non-negative integer [g] such that [max_iter_inc]
    increments of [g] from [initial_gauss_count] do not pass
    [max_gauss_count], and one more increment would. *)
Theorem inc_gauss_count_fills_range (self : object) (M I n : Z) :
  ob_dict self !! "max_gauss_count" = Some (VInt M) ->
  ob_dict self !! "initial_gauss_count" = Some (VInt I) ->
  ob_dict self !! "num_iters" = Some (VInt n) ->
  0 <= M - I < 2 ^ 53 ->
  (monophone_family (ob_class self) = true -> 0 < n - 10 ->
     exists g, getattr self "inc_gauss_count" = Ok (VInt g)
       /\ 0 <= g /\ I + g * (n - 10) <= M < I + (g + 1) * (n - 10))
  /\ (ob_class self = LdaMlltConfig_t -> 0 < n ->
     exists g, getattr self "inc_gauss_count" = Ok (VInt g)
       /\ 0 <= g /\ I + g * n <= M < I + (g + 1) * n).
Proof.
  intros HM HI Hn Hb.
  assert (Q : forall b, 0 < b ->
    int_truediv (M - I) b ≫= int_of_float = Ok (VInt ((M - I) / b))
    /\ 0 <= (M - I) / b
    /\ I + (M - I) / b * b <= M < I + ((M - I) / b + 1) * b).
  { intros b Hp. split.
    - rewrite PyFacts.int_truediv_quot by lia.
      rewrite Z.quot_div_nonneg by lia. reflexivity.
    - split; [apply Z.div_pos; lia|].
      pose proof (Z.div_mod (M - I) b ltac:(lia)).
      pose proof (Z.mod_pos_bound (M - I) b Hp). nia. }
  split.
  - intros Hc Hp. exists ((M - I) / (n - 10)).
    rewrite (getattr_inc_gauss_count _ Hc).
    rewrite (mono_inc_gauss_count_ints _ _ _ _ HM HI Hn). apply Q, Hp.
  - intros Hc Hp. exists ((M - I) / n).
    rewrite (getattr_lda_inc_gauss_count _ Hc).
    rewrite (lda_inc_gauss_count_ints _ _ _ _ HM HI Hn). apply Q, Hp.
Qed.

Lemma inc_gauss_count_fills_range_witness :
  let self :=
    assign (assign (assign (new LdaMlltConfig_t)
      "max_gauss_count" (VInt 10000))
      "initial_gauss_count" (VInt 5000))
      "num_iters" (VInt 13) in
  ob_dict self !! "max_gauss_count" = Some (VInt 10000)
  /\ ob_dict self !! "initial_gauss_count" = Some (VInt 5000)
  /\ ob_dict self !! "num_iters" = Some (VInt 13)
  /\ 0 <= 10000 - 5000 < 2 ^ 53
  /\ exists g, getattr self "inc_gauss_count" = Ok (VInt g)
       /\ 0 <= g /\ 5000 + g * 13 <= 10000 < 5000 + (g + 1) * 13.
Proof.
  intros self.
  assert (H1 : ob_dict self !! "max_gauss_count" = Some (VInt 10000))
    by (vm_compute; reflexivity).
  assert (H2 : ob_dict self !! "initial_gauss_count" = Some (VInt 5000))
    by (vm_compute; reflexivity).
  assert (H3 : ob_dict self !! "num_iters" = Some (VInt 13))
    by (vm_compute; reflexivity).
  assert (H4 : 0 <= 10000 - 5000 < 2 ^ 53) by (split; [discriminate | reflexivity]).
  repeat (split; [assumption|]).
  exact (proj2 (inc_gauss_count_fills_range self _ _ _ H1 H2 H3 H4) eq_refl eq_refl).
Defined.

(** ** The file of the feature-extraction configuration *)

Import OsMore.

(** X7: the constructor with overrides [kw] writes the [use-energy] line
    first and the [frame-shift] line second, each with the override when
    [kw] has one and the default otherwise, and after them one line for
    each other key of [kw], in the order of [kw]. *)
Theorem mfcc_file_line_order (od : string) (j : pyval) (kw : Dict.t pyval)
    (fs fs' : filesys) (self : MfccConfig) :
  MfccConfig_init od j (Some kw) fs = (Ok self, fs') -> Dict.wf kw ->
  exists rest,
    files fs' !! mfcc_path self
    = Some (line ("use-energy", Dict.get_default kw "use-energy" (VBool false))
            +:+ line ("frame-shift", Dict.get_default kw "frame-shift" (VInt 10))
            +:+ render rest)
    /\ Dict.keys rest
       = List.filter (Dict.absent_from ["use-energy"; "frame-shift"]) (Dict.keys kw).
Proof.
  intros H Hwf. destruct (MfccConfig_init_inv _ _ _ _ _ _ H) as (E & W).
  destruct (write_inv _ _ _ W) as (Hf & _).
  rewrite Hf, lookup_insert_eq, E. cbn [config_dict].
  set (d0 := [("use-energy", VBool false); ("frame-shift", VInt 10)]).
  pose proof (DictMore.keys_update d0 kw Hwf) as K.
  pose proof (DictMore.get_update d0 kw "use-energy" Hwf) as G1.
  pose proof (DictMore.get_update d0 kw "frame-shift" Hwf) as G2.
  destruct (Dict.update d0 kw) as [|[k1 v1] [|[k2 v2] rest]]; try discriminate K.
  simpl in K. injection K as -> -> K.
  exists rest. split; [|exact K].
  unfold Dict.get_default. simpl in G1, G2.
  destruct (Dict.get kw "use-energy"), (Dict.get kw "frame-shift");
    simpl in G1, G2; injection G1 as ->; injection G2 as ->; reflexivity.
Qed.

Lemma mfcc_file_line_order_witness :
  exists self fs' rest,
    MfccConfig_init "D" VNone
      (Some [("frame-shift", VInt 15); ("num-ceps", VInt 13)]) empty_fs
    = (Ok self, fs')
    /\ files fs' !! mfcc_path self
       = Some (line ("use-energy", VBool false) +:+ line ("frame-shift", VInt 15)
               +:+ render rest)
    /\ Dict.keys rest = ["num-ceps"].
Proof.
  destruct (write_on_empty
              {| job := VNone;
                 config_dict :=
                   Dict.update [("use-energy", VBool false); ("frame-shift", VInt 10)]
                     [("frame-shift", VInt 15); ("num-ceps", VInt 13)];
                 output_directory := "D" |} eq_refl) as [fs' W].
  assert (H : MfccConfig_init "D" VNone
                (Some [("frame-shift", VInt 15); ("num-ceps", VInt 13)]) empty_fs
              = (Ok {| job := VNone;
                       config_dict :=
                         Dict.update [("use-energy", VBool false); ("frame-shift", VInt 10)]
                           [("frame-shift", VInt 15); ("num-ceps", VInt 13)];
                       output_directory := "D" |}, fs')).
  { unfold MfccConfig_init. unfold mbind at 1. unfold io_bind. rewrite W. reflexivity. }
  destruct (mfcc_file_line_order _ _ _ _ _ _ H
              (wf_literal [("frame-shift", VInt 15); ("num-ceps", VInt 13)] eq_refl))
    as (rest & F & K).
  eexists. exists fs', rest. split; [exact H|]. split; [exact F | exact K].
Defined.

(** X8: [update] with one key that the dictionary has rewrites the file
    with that key's line changed in place: the keys and their order stay,
    every other item stays, and no line is added. *)
Theorem update_present_key (self : MfccConfig) (k : string) (v old : pyval)
    (fs fs' : filesys) :
  Dict.wf (config_dict self) ->
  Dict.get (config_dict self) k = Some old ->
  snd (update self [(k, v)]) fs = (Ok tt, fs') ->
  let d' := map (fun kv => if String.eqb k (fst kv) then (fst kv, v) else kv)
                (config_dict self) in
  config_dict (fst (update self [(k, v)])) = d'
  /\ Dict.keys d' = Dict.keys (config_dict self)
  /\ files fs' !! mfcc_path self = Some (render d').
Proof.
  intros Hwf G W d'. simpl in W.
  destruct (write_inv _ _ _ W) as (Hf & _).
  assert (E : config_dict (updated self [(k, v)]) = d').
  { simpl. apply (DictMore.set_present _ _ _ _ Hwf G). }
  split; [exact E|]. split.
  - unfold d', Dict.keys. rewrite map_map. apply map_ext.
    intros [k0 v0]. simpl. destruct (String.eqb k k0); reflexivity.
  - rewrite Hf, E. apply lookup_insert_eq.
Qed.

Lemma update_present_key_witness :
  let self := {| job := VNone;
                 config_dict := [("use-energy", VBool false); ("frame-shift", VInt 10)];
                 output_directory := "D" |} in
  exists fs',
    snd (update self [("frame-shift", VInt 15)]) empty_fs = (Ok tt, fs')
    /\ files fs' !! "D/config/mfcc.conf"
       = Some ("--use-energy=false" +:+ newline +:+ "--frame-shift=15" +:+ newline).
Proof.
  intros self.
  destruct (write_on_empty (updated self [("frame-shift", VInt 15)]) eq_refl) as [fs' W].
  exists fs'. split; [exact W|].
  exact (proj2 (proj2 (update_present_key self "frame-shift" (VInt 15) (VInt 10)
                         empty_fs fs'
                         (wf_literal (config_dict self) eq_refl) eq_refl W))).
Defined.

(** X9: [update] with one key that the dictionary lacks adds one line at
    the end of the file: after a [write], the file is what it was followed
    by the line of the new key. *)
Theorem update_new_key_appends (self : MfccConfig) (k : string) (v : pyval)
    (fs0 fs fs' : filesys) :
  Config.write self fs0 = (Ok tt, fs) ->
  Dict.get (config_dict self) k = None ->
  snd (update self [(k, v)]) fs = (Ok tt, fs') ->
  exists before,
    files fs !! mfcc_path self = Some before
    /\ files fs' !! mfcc_path self = Some (before +:+ line (k, v)).
Proof.
  intros W0 G W. simpl in W.
  destruct (write_inv _ _ _ W0) as (Hf0 & _).
  destruct (write_inv _ _ _ W) as (Hf & _).
  exists (render (config_dict self)). split.
  - rewrite Hf0. apply lookup_insert_eq.
  - rewrite Hf. change (mfcc_path (updated self [(k, v)])) with (mfcc_path self).
    rewrite lookup_insert_eq. simpl.
    rewrite (DictMore.set_absent _ _ _ G), render_snoc. reflexivity.
Qed.

Lemma update_new_key_appends_witness :
  let self := {| job := VNone;
                 config_dict := [("use-energy", VBool false); ("frame-shift", VInt 10)];
                 output_directory := "D" |} in
  exists fs fs',
    Config.write self empty_fs = (Ok tt, fs)
    /\ snd (update self [("num-ceps", VInt 13)]) fs = (Ok tt, fs')
    /\ files fs' !! "D/config/mfcc.conf"
       = Some (("--use-energy=false" +:+ newline +:+ "--frame-shift=10" +:+ newline)
               +:+ "--num-ceps=13" +:+ newline).
Proof.
  intros self.
  destruct (write_on_empty self eq_refl) as [fs W0].
  destruct (write_steps _ _ _ W0) as (fs1 & fs2 & P & O & E).
  assert (W : exists fs', snd (update self [("num-ceps", VInt 13)]) fs = (Ok tt, fs')).
  { destruct (write_inv _ _ _ W0) as (_ & fsa & Pa & Da).
    destruct (path_inv _ _ _ _ Pa) as (_ & C).
    destruct (config_directory_inv _ _ _ _ C) as (_ & _ & Hd & _).
    apply write_succeeds; try reflexivity.
    - subst fs. apply (existsb_is_file_insert empty_fs).
      intros Hin. apply (mfcc_path_not_made self), in_or_app. left. exact Hin.
    - subst fs. unfold is_file. simpl. rewrite lookup_insert_ne by discriminate.
      reflexivity.
    - unfold is_dir. apply bool_decide_eq_false. rewrite Da, Hd.
      rewrite elem_of_union, elem_of_list_to_set.
      intros [Hin | Hin]; [apply not_elem_of_empty in Hin; exact Hin|].
      apply (mfcc_path_not_made self), list_elem_of_In. exact Hin. }
  destruct W as [fs' W]. exists fs, fs'. split; [exact W0|]. split; [exact W|].
  destruct (update_new_key_appends self "num-ceps" (VInt 13) _ _ _ W0 eq_refl W)
    as (before & B & A).
  destruct (write_inv _ _ _ W0) as (Hf0 & _).
  rewrite Hf0, lookup_insert_eq in B. injection B as <-. exact A.
Defined.

(** X10: [update] with the same options a second time changes nothing:
    the dictionary and the whole file system are as the first [update]
    left them. *)
Theorem update_twice_same (self : MfccConfig) (kwargs : Dict.t pyval)
    (fs fs' : filesys) :
  Dict.wf kwargs ->
  snd (update self kwargs) fs = (Ok tt, fs') ->
  let self' := fst (update self kwargs) in
  fst (update self' kwargs) = self'
  /\ snd (update self' kwargs) fs' = (Ok tt, fs').
Proof.
  intros Hwf W self'. simpl in W.
  assert (E : updated (updated self kwargs) kwargs = updated self kwargs).
  { unfold updated. simpl. rewrite (DictMore.update_twice _ _ Hwf). reflexivity. }
  split.
  - exact E.
  - subst self'.
    change (Config.write (updated (updated self kwargs) kwargs) fs' = (Ok tt, fs')).
    rewrite E. exact (write_again _ _ _ W).
Qed.

Lemma update_twice_same_witness :
  let self := {| job := VInt 2;
                 config_dict := [("use-energy", VBool false); ("frame-shift", VInt 10)];
                 output_directory := "D" |} in
  let kwargs := [("frame-shift", VInt 15); ("num-ceps", VInt 13)] in
  exists fs',
    snd (update self kwargs) empty_fs = (Ok tt, fs')
    /\ snd (update (fst (update self kwargs)) kwargs) fs' = (Ok tt, fs').
Proof.
  intros self kwargs.
  destruct (write_on_empty (updated self kwargs) eq_refl) as [fs' W].
  exists fs'. split; [exact W|].
  exact (proj2 (update_twice_same self kwargs empty_fs fs'
                  (wf_literal kwargs eq_refl) W)).
Defined.

(** X11: when [write] raises, in the constructor or in [update], no file
    but the one at [path] has changed, and that one is as it was or holds
    the lines of the items before the one [write] raised on; [update] has
    changed the dictionary all the same, so the file no longer follows it.
    So it is when [update], called after a [write] that returned, meets
    among values that are no lists one that [str] refuses: it raises
    [ValueError] and leaves the lines of the items before that value. *)
Theorem failed_write_keeps_other_files :
  (forall (self : MfccConfig) (fs fs' : filesys) (e : exn),
     Config.write self fs = (Raise e, fs') ->
     (forall q, q <> mfcc_path self -> files fs' !! q = files fs !! q)
     /\ (files fs' = files fs
         \/ exists d1 d2,
              config_dict self = d1 ++ d2 /\ d2 <> []
              /\ files fs' = <[mfcc_path self := render d1]> (files fs)))
  /\ (forall (od : string) (j : pyval) (kwargs : option (Dict.t pyval))
             (fs fs' : filesys) (e : exn),
     MfccConfig_init od j kwargs fs = (Raise e, fs') ->
     forall q, q <> path_join (path_join od "config") (file_name j) ->
               files fs' !! q = files fs !! q)
  /\ (forall (self : MfccConfig) (kwargs : Dict.t pyval) (fs fs' : filesys) (e : exn),
     snd (update self kwargs) fs = (Raise e, fs') ->
     (forall q, q <> mfcc_path self -> files fs' !! q = files fs !! q)
     /\ config_dict (fst (update self kwargs)) = Dict.update (config_dict self) kwargs)
  /\ (forall (self : MfccConfig) (kwargs : Dict.t pyval) (fs0 fs : filesys),
     Config.write self fs0 = (Ok tt, fs) ->
     no_list (Dict.update (config_dict self) kwargs) = true ->
     convertible (Dict.update (config_dict self) kwargs) = false ->
     snd (update self kwargs) fs
     = (Raise ValueError,
        {| dirs := dirs fs;
           files := <[mfcc_path self :=
                        render (converted (Dict.update (config_dict self) kwargs))]>
                      (files fs) |})).
Proof.
  split; [|split; [|split]].
  - intros self fs fs' e W. split.
    + intros q Hq. exact (write_raise_others _ _ _ _ q W Hq).
    + exact (write_raise_files _ _ _ _ W).
  - intros od j kwargs fs fs' e. unfold MfccConfig_init.
    unfold mbind at 1. unfold io_bind.
    match goal with |- context [Config.write ?o fs] =>
      destruct (Config.write o fs) as [[[]|e1] fs1] eqn:W end; [discriminate|].
    intros H q Hq. injection H as _ <-. exact (write_raise_others _ _ _ _ q W Hq).
  - intros self kwargs fs fs' e W. simpl in W. split; [|reflexivity].
    intros q Hq. exact (write_raise_others _ _ _ _ q W Hq).
  - intros self kwargs fs0 fs W _ C.
    change (snd (update self kwargs)) with (Config.write (updated self kwargs)).
    rewrite (write_after self (updated self kwargs) _ _ W eq_refl eq_refl).
    change (config_dict (updated self kwargs))
      with (Dict.update (config_dict self) kwargs).
    rewrite C. reflexivity.
Qed.

(** A file where the directory [config] should be: [update] raises, the
    file system is untouched, the dictionary has the new value. *)
Lemma failed_write_keeps_other_files_witness :
  let self := {| job := VNone;
                 config_dict := [("use-energy", VBool false); ("frame-shift", VInt 10)];
                 output_directory := "D" |} in
  let fs := {| dirs := {["D"]}; files := {["D/config" := "x"]} |} in
  snd (update self [("frame-shift", VInt 15)]) fs = (Raise FileExistsError, fs)
  /\ Dict.get (config_dict (fst (update self [("frame-shift", VInt 15)]))) "frame-shift"
     = Some (VInt 15).
Proof.
  intros self fs.
  assert (W : snd (update self [("frame-shift", VInt 15)]) fs
              = (Raise FileExistsError, fs)) by (vm_compute; reflexivity).
  split; [exact W|].
  destruct (proj1 (proj2 (proj2 failed_write_keeps_other_files)) _ _ _ _ _ W) as (_ & D).
  rewrite D. reflexivity.
Defined.

Lemma append_cancel_r (a b c : string) : a +:+ c = b +:+ c -> a = b.
Proof.
  revert b. induction a as [|x a IH]; intros [|y b] H.
  - reflexivity.
  - apply (f_equal String.length) in H.
    rewrite append_empty_l, append_cons in H. simpl in H.
    rewrite length_append in H. lia.
  - apply (f_equal String.length) in H.
    rewrite append_empty_l, append_cons in H. simpl in H.
    rewrite length_append in H. lia.
  - rewrite !append_cons in H. injection H as -> H. f_equal. apply IH, H.
Qed.

(** X12: in one output directory, two different integer job identifiers
    give two different files, and a job identifier never gives the file
    [mfcc.conf] of a configuration without job. *)
Theorem job_files_distinct (od : string) (d1 d2 : Dict.t pyval) (i j : Z) :
  i <> j ->
  mfcc_path {| job := VInt i; config_dict := d1; output_directory := od |}
  <> mfcc_path {| job := VInt j; config_dict := d2; output_directory := od |}
  /\ mfcc_path {| job := VInt i; config_dict := d1; output_directory := od |}
     <> mfcc_path {| job := VNone; config_dict := d2; output_directory := od |}.
Proof.
  intros Hne. rewrite !mfcc_path_in_config_dir. cbn [job output_directory].
  unfold file_name, format. cbn [is_none Py.str repr].
  split; intros H.
  - apply String.app_inj in H. change ("/" +:+ ?s) with (String "/" s) in H.
    injection H as H. apply String.app_inj in H.
    apply append_cancel_r in H. apply Hne. exact (pretty_Z_inj _ _ H).
  - apply String.app_inj in H. change ("/" +:+ ?s) with (String "/" s) in H.
    injection H as H. rewrite append_empty_l in H.
    apply (f_equal String.length) in H. rewrite length_append in H.
    simpl in H. lia.
Qed.

Lemma job_files_distinct_witness :
  1 <> 2
  /\ mfcc_path {| job := VInt 1; config_dict := []; output_directory := "D" |}
     <> mfcc_path {| job := VInt 2; config_dict := []; output_directory := "D" |}.
Proof.
  assert (H : 1 <> 2) by discriminate.
  split; [exact H|].
  exact (proj1 (job_files_distinct "D" [] [] 1 2 H)).
Defined.

Lemma field_inv (self : object) (k : string) (v : pyval) :
  field self k = Ok v -> ob_dict self !! k = Some v.
Proof. unfold field. destruct (ob_dict self !! k); intros H; congruence. Qed.

(** X13: a [TriphoneConfig] whose keywords leave [num_iters],
    [max_gauss_count] and [initial_gauss_count] alone has [max_iter_inc]
    25 and [inc_gauss_count] 1876, whatever else the keywords set. *)
Theorem TriphoneConfig_default_increment (kwargs : Dict.t pyval) (o : object) :
  TriphoneConfig kwargs = Ok o -> Dict.wf kwargs ->
  Dict.get kwargs "num_iters" = None ->
  Dict.get kwargs "max_gauss_count" = None ->
  Dict.get kwargs "initial_gauss_count" = None ->
  getattr o "max_iter_inc" = Ok (VInt 25)
  /\ getattr o "inc_gauss_count" = Ok (VInt 1876).
Proof.
  intros H Hwf G1 G2 G3. apply TriphoneConfig_init_inv in H.
  set (defaults := [("num_iters", VInt 35); ("initial_gauss_count", VInt 3100);
                    ("max_gauss_count", VInt 50000); ("cluster_threshold", VInt 100);
                    ("do_lda_mllt", VBool false)]) in *.
  assert (Wm : Dict.wf (Dict.update defaults kwargs))
    by (apply DictFacts.wf_update, wf_literal; reflexivity).
  assert (Hc : monophone_family (ob_class o) = true).
  { destruct (Claims.MonophoneConfig_init_stored _ _ _ H) as (-> & _). reflexivity. }
  assert (L : forall k v,
    Dict.get kwargs k = None -> Dict.get defaults k = Some v ->
    is_property (ob_class o) k = false -> ob_dict o !! k = Some v).
  { intros k v G D P. apply field_inv. rewrite <- (getattr_plain _ _ P).
    apply (MonophoneConfig_init_keyword _ _ _ _ _ H Wm).
    rewrite (DictMore.get_update _ _ _ Hwf), G. exact D. }
  assert (P : forall k, is_property TriphoneConfig_t k = false ->
                        is_property (ob_class o) k = false).
  { destruct (Claims.MonophoneConfig_init_stored _ _ _ H) as (-> & _). auto. }
  pose proof (L "num_iters" _ G1 eq_refl (P "num_iters" eq_refl)) as Ln.
  pose proof (L "max_gauss_count" _ G2 eq_refl (P "max_gauss_count" eq_refl)) as LM.
  pose proof (L "initial_gauss_count" _ G3 eq_refl (P "initial_gauss_count" eq_refl))
    as LI.
  split.
  - rewrite (getattr_max_iter_inc _ Hc). unfold MonophoneConfig_max_iter_inc.
    rewrite (field_lookup _ _ _ Ln). reflexivity.
  - rewrite (getattr_inc_gauss_count _ Hc).
    rewrite (mono_inc_gauss_count_ints _ _ _ _ LM LI Ln).
    vm_compute. reflexivity.
Qed.

Lemma TriphoneConfig_default_increment_witness :
  exists o,
    TriphoneConfig [("beam", VInt 12)] = Ok o
    /\ getattr o "max_iter_inc" = Ok (VInt 25)
    /\ getattr o "inc_gauss_count" = Ok (VInt 1876).
Proof.
  pose proof (TriphoneConfig_init_run TriphoneConfig_t [("beam", VInt 12)]) as [o H].
  exists o. split; [exact H|].
  exact (TriphoneConfig_default_increment _ o H
           (wf_literal [("beam", VInt 12)] eq_refl) eq_refl eq_refl eq_refl).
Defined.

End Extras.
